(** * superwstest: the chainable WebSocket test pipeline

    A shallow embedding of [src/superwstest.js].  JavaScript values, thrown
    errors and promises are modelled explicitly; the functions of the source
    are translated one by one and keep their names.

    Time is logical: a promise is described by the instant at which it
    settles and by how it settles.  The transport ([ws]), the server and
    the message queue ([blocking-queue]) are outside the repository; a
    socket carries the description of what they will do. *)

From Stdlib Require Import ZArith String Ascii List Lia Bool.
From Stdlib.Strings Require Import Byte.
From stdpp Require Import base decidable option list functions gmap pretty strings.
From Equations Require Import Equations.

Set Warnings "-register-all,-clear-no-such-hyp".
Open Scope Z_scope.

(** ** JavaScript data *)

Module Js.

(** Numbers: the integer-valued doubles and [NaN]. *)
Inductive number := NaN | Num (z : Z).

(** The data values a test script passes around.  Functions and regular
    expressions are kept apart (see [Check_] and [Expected] below), so
    that [value] stays first order. *)
Inductive value :=
| VUndefined
| VNull
| VBool (b : bool)
| VNumber (n : number)
| VString (s : string)
| VBytes (b : list byte)                    (* a Uint8Array *)
| VArray (l : list value)
| VObject (fields : list (string * value)).

(** What the transport delivers with a 'message' event. *)
Inductive payload :=
| PText (s : string)
| PBinary (b : list byte).                  (* a Buffer *)

(** A thrown [Error]. *)
Record Error := mkError { message : string }.

Definition dquote : string := String (ascii_of_N 34) EmptyString.

Definition typeof (v : value) : string :=
  match v with
  | VUndefined => "undefined"
  | VBool _ => "boolean"
  | VNumber _ => "number"
  | VString _ => "string"
  | VNull | VBytes _ | VArray _ | VObject _ => "object"
  end.

Definition typeof_payload (d : payload) : string :=
  match d with
  | PText _ => "string"
  | PBinary _ => "object"
  end.

(** ToBoolean. *)
Definition truthy (v : value) : bool :=
  match v with
  | VUndefined | VNull => false
  | VBool b => b
  | VNumber NaN => false
  | VNumber (Num z) => negb (z =? 0)
  | VString s => negb (String.eqb s EmptyString)
  | VBytes _ | VArray _ | VObject _ => true
  end.

(** How a call completes: it returns, or it throws. *)
Inductive result (A : Type) :=
| Ok (a : A)
| Err (e : Error).
Arguments Ok {A} a.
Arguments Err {A} e.

(** [Number.MAX_SAFE_INTEGER]. *)
Definition MAX_SAFE_INTEGER : Z := 9007199254740991.

(** The double nearest to a positive integer (ties to even), itself an
    integer; [None] above the range of doubles, where the number is
    [Infinity].  [Num z] is the number that JavaScript reads from the
    integer [z]. *)
Definition toDouble (z : Z) : option Z :=
  let bits := Z.log2 z + 1 in
  if bits <=? 53 then Some z
  else
    let shift := bits - 53 in
    let q := Z.shiftr z shift in
    let r := z - Z.shiftl q shift in
    let half := Z.shiftl 1 (shift - 1) in
    let q' := if (half <? r) || ((r =? half) && Z.odd q) then q + 1 else q in
    let x := Z.shiftl q' shift in
    if 2 ^ 1024 <=? x then None else Some x.

Definition digitCount (z : Z) : Z := Z.of_nat (String.length (pretty z)).

(** The digit strings [s] of [k] digits with [s * 10^(n-k)] read back as
    the double [x] (Number::toString, step 5 of the language standard). *)
Definition candidates (x k n : Z) : list (Z * Z) :=
  if n <? k then []
  else
    let p := 10 ^ (n - k) in
    let lo := x / p in
    List.filter (fun sn => (10 ^ (k - 1) <=? fst sn) && (fst sn <? 10 ^ k)
                           && bool_decide (toDouble (fst sn * p) = Some x))
                [(lo, n); (lo + 1, n)].

Definition closest (x k : Z) (c d : Z * Z) : Z * Z :=
  if Z.abs (fst d * 10 ^ (snd d - k) - x) <? Z.abs (fst c * 10 ^ (snd c - k) - x)
  then d else c.

(** The shortest such digit string, the closest to [x] among them: its
    digits [s], the decimal exponent [n] and the number [k] of digits.
    Seventeen digits are enough for a double. *)
Fixpoint shortest (fuel : nat) (x k : Z) : option (Z * Z * Z) :=
  match fuel with
  | O => None
  | S fuel' =>
      let d := digitCount x in
      match candidates x k d ++ candidates x k (d + 1) with
      | c :: cs => let '(s, n) := foldl (closest x k) c cs in Some (s, n, k)
      | [] => shortest fuel' x (k + 1)
      end
  end.

Fixpoint zeros (n : nat) : string :=
  match n with
  | O => EmptyString
  | S n' => String "0" (zeros n')
  end.

(** The string of a positive integer-valued double: all its digits up to
    [MAX_SAFE_INTEGER]; beyond, the shortest digits, padded with zeros
    below 10^21 and in exponent form from there on. *)
Definition render (x : Z) : string :=
  if x <=? MAX_SAFE_INTEGER then pretty x
  else
    match shortest 17 x 1 with
    | Some (s, n, k) =>
        if n <=? 21 then pretty s +:+ zeros (Z.to_nat (n - k))
        else
          match pretty s with
          | String c EmptyString => String c ("e+" +:+ pretty (n - 1))
          | String c rest => String c ("." +:+ rest +:+ "e+" +:+ pretty (n - 1))
          | EmptyString => EmptyString
          end
    | None => pretty x
    end.

Definition number_to_string (n : number) : string :=
  match n with
  | NaN => "NaN"
  | Num z =>
      if z =? 0 then "0"
      else
        match toDouble (Z.abs z) with
        | Some x => (if z <? 0 then "-" else EmptyString) +:+ render x
        | None => if z <? 0 then "-Infinity" else "Infinity"
        end
  end.

Arguments number_to_string : simpl never.

Fixpoint join (sep : string) (l : list string) : string :=
  match l with
  | [] => EmptyString
  | [s] => s
  | s :: l' => s +:+ sep +:+ join sep l'
  end.

(** Is [key] one of the own properties of an object? *)
Definition hasOwn (key : string) (fields : list (string * value)) : bool :=
  existsb (fun kv => String.eqb (fst kv) key) fields.

(** [String(v)] and the conversion done by a template literal.  A plain
    object is printed by [Object.prototype.toString]; when it has an own
    property [toString] (in this model never a function), neither
    [toString] nor [valueOf] yields a primitive and the conversion throws.
    An array joins the strings of its elements, [null] and [undefined]
    giving the empty string. *)
Fixpoint String_ (v : value) : result string :=
  match v with
  | VUndefined => Ok "undefined"%string
  | VNull => Ok "null"%string
  | VBool true => Ok "true"%string
  | VBool false => Ok "false"%string
  | VNumber n => Ok (number_to_string n)
  | VString s => Ok s
  | VBytes b => Ok (join "," (map (fun x => pretty (Byte.to_N x)) b))
  | VArray l =>
      match (fix elements (l : list value) : result (list string) :=
               match l with
               | [] => Ok []
               | x :: l' =>
                   match (match x with
                          | VUndefined | VNull => Ok EmptyString
                          | _ => String_ x
                          end), elements l' with
                   | Ok s, Ok ss => Ok (s :: ss)
                   | Err e, _ => Err e
                   | _, Err e => Err e
                   end
               end) l with
      | Ok ss => Ok (join "," ss)
      | Err e => Err e
      end
  | VObject fields =>
      if hasOwn "toString" fields
      then Err (mkError "Cannot convert object to primitive value")
      else Ok "[object Object]"%string
  end.

(** A template literal with [v] in it: the conversion of [v] may throw. *)
Definition templated {A} (v : value) (k : string -> result A) : result A :=
  match String_ v with
  | Ok s => k s
  | Err e => Err e
  end.

(** [actual === v] for a string [actual]. *)
Definition strict_eq_string (actual : string) (v : value) : bool :=
  match v with
  | VString s => String.eqb actual s
  | _ => false
  end.

(** [v === false]. *)
Definition is_false (v : value) : bool :=
  match v with
  | VBool false => true
  | _ => false
  end.

(** [hay.includes(needle)]. *)
Fixpoint includes (needle hay : string) : bool :=
  String.prefix needle hay ||
  match hay with
  | EmptyString => false
  | String _ hay' => includes needle hay'
  end.

Definition hexdigit (n : N) : ascii :=
  match String.get (N.to_nat n) "0123456789abcdef" with
  | Some c => c
  | None => "0"%char
  end.

(** Two lower-case hexadecimal digits, as [Buffer.toString('hex')]. *)
Definition hex (b : byte) : string :=
  let n := Byte.to_N b in
  String (hexdigit (n / 16)%N) (String (hexdigit (n mod 16)%N) EmptyString).

End Js.
Import Js.

(** ** Completions and promises *)

Definition time := Z.

(** The black boxes of the source: [JSON.stringify], [JSON.parse] and
    [fast-deep-equal].  [JSON.stringify] yields [None] where JavaScript
    yields [undefined]. *)
Class Builtins := {
  JSON_stringify : value -> option string;
  JSON_parse : string -> result value;
  equal : value -> value -> bool;
}.

(** A promise, seen from outside: the instant at which it settles and the
    outcome (fulfilled with a value, rejected with an error), or [Pending]
    when it never settles. *)
Inductive promise (A : Type) :=
| Settled (t : time) (r : result A)
| Pending.
Arguments Settled {A} t r.
Arguments Pending {A}.

Module Promise.

(** A promise that settled at [t] is seen by code running at [now] no
    earlier than [now]. *)
Definition observe {A} (now : time) (p : promise A) : promise A :=
  match p with
  | Settled t r => Settled (Z.max now t) r
  | Pending => Pending
  end.

Definition resolved {A} (now : time) (a : A) : promise A := Settled now (Ok a).
Definition rejected {A} (now : time) (e : Error) : promise A := Settled now (Err e).

(** [p.then(f)], for a callback without side effects that may itself
    return a promise. *)
Definition then_ {A B} (p : promise A) (f : time -> A -> promise B) : promise B :=
  match p with
  | Settled t (Ok a) => observe t (f t a)
  | Settled t (Err e) => Settled t (Err e)
  | Pending => Pending
  end.

(** [p.then(f)] for a synchronous callback. *)
Definition then_sync {A B} (p : promise A) (f : A -> result B) : promise B :=
  then_ p (fun t a => Settled t (f a)).

(** [p.catch(f)]. *)
Definition catch_ {A} (p : promise A) (f : time -> Error -> promise A) : promise A :=
  match p with
  | Settled t (Err e) => observe t (f t e)
  | _ => p
  end.

(** Of two promises of one [Promise.race], the one that settles first.
    When both settle at the same instant the one listed first is taken;
    the properties below ask for strictly ordered instants wherever the
    winner matters, and do not lean on this choice. *)
Definition first {A} (p q : promise A) : promise A :=
  match p, q with
  | Pending, _ => q
  | _, Pending => p
  | Settled tp _, Settled tq _ => if tq <? tp then q else p
  end.

Definition race {A} (ps : list (promise A)) : promise A :=
  foldr first Pending ps.

(** A one-shot event of the transport ([None]: it never happens), as the
    promise obtained from [queue.pop()]. *)
Definition of_event {A} (ev : option (time * A)) : promise A :=
  match ev with
  | Some (t, a) => Settled t (Ok a)
  | None => Pending
  end.

(** [TIMEOUT_MAX] of Node's timers. *)
Definition TIMEOUT_MAX : Z := 2147483647.

(** The delay after which [setTimeout(f, ms)] runs [f]: a delay below 1
    or above [TIMEOUT_MAX] is taken for 1. *)
Definition delay (ms : Z) : Z :=
  if (1 <=? ms) && (ms <=? TIMEOUT_MAX) then ms else 1.

(** [new Promise((resolve) => setTimeout(resolve, ms))]. *)
Definition timer (now : time) (ms : Z) : promise unit :=
  Settled (now + delay ms) (Ok tt).

End Promise.

(** ** The connection *)

(** [WebSocket.CONNECTING], [OPEN], [CLOSING], [CLOSED]. *)
Inductive ready_state := CONNECTING | OPEN | CLOSING | CLOSED.

(** The [{ code, message }] pushed when the 'close' event fires. *)
Record CloseEvent := mkCloseEvent { code : Z; closeMessage : string }.

(** The response handed over by the 'upgrade' event. *)
Record UpgradeResponse := mkUpgradeResponse { statusCode : Z; headers : value }.

(** One client socket: the [ws] object built in [wsRequest].  The first
    fields describe the transport and the peer, which the library only
    observes; [sent] and [closeCalls] record what the library asked the
    transport to do. *)
Record WebSocket := mkWebSocket {
  (* ready state the transport reports as long as [close] was not called *)
  lineState : time -> ready_state;
  (* outcome of [send(msg, options, cb)] called at an instant: the
     callback runs without an error, with an error, or never *)
  transportSend : time -> value -> value -> promise unit;
  (* 'open', or the 'error' that precedes it *)
  opened : promise unit;
  (* ws.messages: the payloads queued or still to arrive, oldest first *)
  messages : list (time * payload);
  (* ws.closed, ws.firstError, ws.upgrade: the first event of each queue *)
  closed : option (time * CloseEvent);
  firstError : option (time * Error);
  upgrade : option (time * UpgradeResponse);
  sent : list (value * value);
  closeCalls : list (value * value);
}.

Definition set_messages (q : list (time * payload)) (s : WebSocket) : WebSocket :=
  mkWebSocket (lineState s) (transportSend s) (opened s) q (closed s)
    (firstError s) (upgrade s) (sent s) (closeCalls s).

Definition set_sent (l : list (value * value)) (s : WebSocket) : WebSocket :=
  mkWebSocket (lineState s) (transportSend s) (opened s) (messages s) (closed s)
    (firstError s) (upgrade s) l (closeCalls s).

Definition set_closeCalls (l : list (value * value)) (s : WebSocket) : WebSocket :=
  mkWebSocket (lineState s) (transportSend s) (opened s) (messages s) (closed s)
    (firstError s) (upgrade s) (sent s) l.

(** [ws.readyState] read at [now]: once [close] has been called the
    transport never reports connecting or open again. *)
Definition readyState (now : time) (s : WebSocket) : ready_state :=
  match closeCalls s, lineState s now with
  | _ :: _, (CONNECTING | OPEN) => CLOSING
  | _, st => st
  end.

(** Has the 'close' event fired by [now]? *)
Definition closeFired (now : time) (s : WebSocket) : bool :=
  match closed s with
  | Some (t, _) => t <=? now
  | None => false
  end.

(** The objects of the program: sockets are referred to by number;
    [clientSockets] is the module-level [Set].  [closeRefuses] is the
    transport's: the error that its [close(code, message)] throws for a
    socket, an instant and arguments it does not accept ([None]: it
    accepts them). *)
Record world := mkWorld {
  sockets : nat -> WebSocket;
  clientSockets : gset nat;
  closeRefuses : nat -> time -> value -> value -> option Error;
}.

(** An operation started at some instant: it acts on the world at once and
    hands back the promise of its result. *)
Definition op (A : Type) := world -> promise A * world.

(** A call that may throw before it hands back a promise. *)
Definition attempt (A : Type) := world -> result (promise A) * world.

Definition returns {A} (o : op A) : attempt A :=
  fun w => let '(p, w1) := o w in (Ok p, w1).

(** [blocking-queue], by its contract: [pop] hands out the oldest item
    not yet handed out, as soon as it is there. *)
Module BlockingQueue.

Definition pop {A} (now : time) (q : list (time * A)) : promise A * list (time * A) :=
  match q with
  | [] => (Pending, [])
  | (t, a) :: q' => (Settled (Z.max now t) (Ok a), q')
  end.

End BlockingQueue.

(** The transport's own [close(code, message)]. *)
Definition originalClose (code message : value) (s : WebSocket) : WebSocket :=
  set_closeCalls (closeCalls s ++ [(code, message)]) s.

(** What the transport's [close(code, message)] throws, if it throws:
    without a code it has nothing to validate. *)
Definition closeRefusal (ws : nat) (now : time) (code message : value) (w : world)
  : option Error :=
  match code with
  | VUndefined => None
  | _ => closeRefuses w ws now code message
  end.

(** [ws.close] as [wsRequest] replaces it (lines 191-195):
    [originalClose(...args)], then [clientSockets.delete(ws)], which is
    not reached when the transport throws.  The transport has noted the
    call, and left the open state, before it validates the arguments. *)
Definition ws_close (ws : nat) (now : time) (code message : value) (w : world)
  : result unit * world :=
  let called := alter (originalClose code message) ws (sockets w) in
  match closeRefusal ws now code message w with
  | Some e =>
      (Err e,
       {| sockets := called; clientSockets := clientSockets w;
          closeRefuses := closeRefuses w |})
  | None =>
      (Ok tt,
       {| sockets := called; clientSockets := clientSockets w ∖ {[ws]};
          closeRefuses := closeRefuses w |})
  end.

(** [ws.send(msg, options, cb)]: the promise tells when and how [cb] runs. *)
Definition ws_send (ws : nat) (now : time) (msg options : value) : op unit :=
  fun w =>
    let s := sockets w ws in
    (Promise.observe now (transportSend s now msg options),
     {| sockets := <[ws := set_sent (sent s ++ [(msg, options)]) s]> (sockets w);
        clientSockets := clientSockets w;
        closeRefuses := closeRefuses w |}).

(** ** Payload conversions (lines 21-51) *)

Definition normaliseBinary (v : list byte) : list byte := v.

#[global] Instance byte_eq_dec : EqDecision byte := Byte.byte_eq_dec.

Definition compareBinary (a b : list byte) : bool := bool_decide (a = b).

Definition stringifyBinary (v : list byte) : string :=
  let spacedHex := join " " (map hex v) in
  "[" +:+ spacedHex +:+ "]".

Definition msgText (data : payload) : result value :=
  match data with
  | PText s => Ok (VString s)
  | _ => Err (mkError ("Expected text message, got " +:+ typeof_payload data))
  end.

Definition msgBinary (data : payload) : result value :=
  match data with
  | PText _ => Err (mkError "Expected binary message, got text")
  | PBinary b => Ok (VBytes (normaliseBinary b))
  end.

(** ** Sending (lines 53-69) *)

Definition sendWithError (ws : nat) (now : time) (msg options : value) : op value :=
  fun w =>
    let '(delivered, w1) := ws_send ws now msg options w in
    let confirmed := Promise.then_sync delivered (fun _ => Ok VUndefined) in
    (Promise.catch_ confirmed (fun t err =>
       if negb (String.eqb (message err) EmptyString)
          && includes "WebSocket is not open" (message err)
       then
         Promise.then_
           (Promise.observe t (Promise.of_event (closed (sockets w1 ws))))
           (fun t' ev =>
              Promise.rejected t'
                (mkError ("Cannot send message; connection closed with "
                          +:+ pretty (code ev) +:+ " "
                          +:+ dquote +:+ closeMessage ev +:+ dquote)))
       else Promise.resolved t VUndefined),
     w1).

(** ** Expectations *)

(** A regular expression: how it prints and what [test] answers. *)
Record RegExp := mkRegExp { regexp_text : string; test : string -> bool }.

(** The [check] argument of [expectMessage]: a value (absent is
    [undefined]) or a function, which may carry an [expectedMessage]. *)
Inductive Check_ :=
| CheckValue (v : value)
| CheckFunction (f : value -> result value) (expectedMessage : option string).

(** The [expected] argument of [expectText]. *)
Inductive Expected :=
| ExpCheck (c : Check_)
| ExpRegExp (r : RegExp).

(** The [expected] argument of [expectBinary]: a function, binary data,
    or nothing ([undefined] and the other falsy values). *)
Inductive ExpectedBinary :=
| BinNothing
| BinFunction (f : value -> result value) (expectedMessage : option string)
| BinData (b : list byte).

(** An option as a template literal prints it. *)
Definition template (o : option string) : string :=
  match o with
  | Some s => s
  | None => "undefined"
  end.

Definition msgJson `{Builtins} (data : payload) : result value :=
  match msgText data with
  | Ok (VString s) => JSON_parse s
  | Ok v => match String_ v with
            | Ok s => JSON_parse s
            | Err e => Err e
            end
  | Err e => Err e
  end.

(** [stringify] (lines 71-79) on a value ... *)
Definition stringify `{Builtins} (v : value) : string :=
  match v with
  | VBytes b => stringifyBinary b
  | _ => template (JSON_stringify v)
  end.

(** ... and on a [check]. *)
Definition stringify_check `{Builtins} (check : Check_) : string :=
  match check with
  | CheckFunction _ (Some m) =>
      if String.eqb m EmptyString then "matching function" else m
  | CheckFunction _ None => "matching function"
  | CheckValue v => stringify v
  end.

(** The part of [expectMessage] that follows the [await] (lines 100-110). *)
Definition checkReceived `{Builtins} (check : Check_) (received : value) : result value :=
  match check with
  | CheckValue VUndefined => Ok VUndefined
  | CheckFunction f _ =>
      match f received with
      | Ok r =>
          if is_false r
          then Err (mkError ("Expected message " +:+ stringify_check check
                             +:+ ", got " +:+ stringify received))
          else Ok VUndefined
      | Err e => Err e
      end
  | CheckValue v =>
      if negb (equal received v)
      then Err (mkError ("Expected message " +:+ stringify_check check
                         +:+ ", got " +:+ stringify received))
      else Ok VUndefined
  end.

(** The timer of [expectMessage] (line 96): armed only when [timeout > 0]. *)
Definition timeoutTimer (now : time) (timeout : option Z) : promise unit :=
  match timeout with
  | Some ms => if 0 <? ms then Promise.timer now ms else Pending
  | None => Pending
  end.

(** The check derived from the argument of [expectText], and of
    [expectBinary] (the [let check] of lines 113-119 and 124-131). *)
Definition textCheck (expected : Expected) : Check_ :=
  match expected with
  | ExpRegExp r =>
      CheckFunction (fun v => match String_ v with
                              | Ok s => Ok (VBool (test r s))
                              | Err e => Err e
                              end)
                    (Some ("matching " +:+ regexp_text r))
  | ExpCheck c => c
  end.

Definition binaryCheck `{Builtins} (expected : ExpectedBinary) : Check_ :=
  match expected with
  | BinFunction f m => CheckFunction f m
  | BinData b =>
      let norm := normaliseBinary b in
      CheckFunction
        (fun v => Ok (VBool (match v with
                             | VBytes a => compareBinary a norm
                             | _ => false
                             end)))
        (Some (stringify (VBytes norm)))
  | BinNothing => CheckValue VUndefined
  end.

(** ** The operations (lines 81-151) *)

Module wsMethods.

Definition send (ws : nat) (now : time) (msg options : value) : op value :=
  sendWithError ws now msg options.

(** [sendText]: [String(msg)] is evaluated first, and may throw. *)
Definition sendText (ws : nat) (now : time) (msg : value) : attempt value :=
  fun w =>
    match String_ msg with
    | Ok text => returns (sendWithError ws now (VString text) VUndefined) w
    | Err e => (Err e, w)
    end.

Definition sendJson `{Builtins} (ws : nat) (now : time) (msg : value) : op value :=
  sendWithError ws now
    (match JSON_stringify msg with Some s => VString s | None => VUndefined end)
    VUndefined.

Definition sendBinary (ws : nat) (now : time) (msg : list byte) : op value :=
  sendWithError ws now (VBytes (normaliseBinary msg))
    (VObject [("binary"%string, VBool true)]).

Definition wait (ws : nat) (now : time) (ms : Z) : op value :=
  fun w => (Promise.then_sync (Promise.timer now ms) (fun _ => Ok VUndefined), w).

(** [exec]: [fn] is the caller's; being called from an [async] function,
    whatever it returns or throws comes back as a promise. *)
Definition exec (ws : nat) (now : time) (fn : nat -> time -> op value) : op value :=
  fun w => let '(p, w1) := fn ws now w in (Promise.observe now p, w1).

Definition expectMessage `{Builtins} (ws : nat) (now : time)
    (conversion : payload -> result value) (check : Check_)
    (timeout : option Z) : op value :=
  fun w =>
    let s := sockets w ws in
    let '(popped, q) := BlockingQueue.pop now (messages s) in
    let w1 := {| sockets := <[ws := set_messages q s]> (sockets w);
                 clientSockets := clientSockets w;
                 closeRefuses := closeRefuses w |} in
    let closedFirst : promise payload :=
      Promise.then_ (Promise.observe now (Promise.of_event (closed s)))
        (fun t ev =>
           Promise.rejected t
             (mkError ("Expected message " +:+ stringify_check check
                       +:+ ", but connection closed: " +:+ pretty (code ev)
                       +:+ " " +:+ dquote +:+ closeMessage ev +:+ dquote))) in
    let timedOut : promise payload :=
      Promise.then_ (timeoutTimer now timeout)
        (fun t _ =>
           Promise.rejected t
             (mkError ("Excepted message within "
                       +:+ template ((fun ms => number_to_string (Num ms)) <$> timeout)
                       +:+ "ms, but nothing arrived"))) in
    let received :=
      Promise.then_sync (Promise.race [popped; closedFirst; timedOut]) conversion in
    (Promise.then_sync received (checkReceived check), w1).

Definition expectText `{Builtins} (ws : nat) (now : time)
    (expected : Expected) (timeout : option Z) : op value :=
  let check := textCheck expected in
  expectMessage ws now msgText check timeout.

Definition expectJson `{Builtins} (ws : nat) (now : time)
    (check : Check_) (timeout : option Z) : op value :=
  expectMessage ws now msgJson check timeout.

Definition expectBinary `{Builtins} (ws : nat) (now : time)
    (expected : ExpectedBinary) (timeout : option Z) : op value :=
  let check := binaryCheck expected in
  expectMessage ws now msgBinary check timeout.

(** [close]: what [ws.close] throws is thrown by the call itself; else
    the call returns [undefined]. *)
Definition close (ws : nat) (now : time) (code message : value) : attempt value :=
  fun w =>
    match ws_close ws now code message w with
    | (Ok _, w1) => (Ok (Promise.resolved now VUndefined), w1)
    | (Err e, w1) => (Err e, w1)
    end.

Definition expectClosed (ws : nat) (now : time)
    (expectedCode expectedMessage : value) : op value :=
  fun w =>
    let expectedCode := match expectedCode with VUndefined => VNull | v => v end in
    let expectedMessage := match expectedMessage with VUndefined => VNull | v => v end in
    (Promise.then_sync (Promise.observe now (Promise.of_event (closed (sockets w ws))))
       (fun ev =>
          let got := pretty (code ev) +:+ " " +:+ dquote +:+ closeMessage ev +:+ dquote in
          if match expectedCode with
             | VNull => false
             | VNumber (Num z) => negb (code ev =? z)
             | _ => true
             end
          then templated expectedCode (fun expected =>
                 Err (mkError ("Expected close code " +:+ expected
                               +:+ ", got " +:+ got)))
          else if match expectedMessage with
                  | VNull => false
                  | v => negb (strict_eq_string (closeMessage ev) v)
                  end
          then templated expectedMessage (fun expected =>
                 Err (mkError ("Expected close message " +:+ dquote
                               +:+ expected +:+ dquote
                               +:+ ", got " +:+ got)))
          else Ok VUndefined),
     w).

Definition expectUpgrade `{Builtins} (ws : nat) (now : time)
    (check : UpgradeResponse -> result value) : op value :=
  fun w =>
    (Promise.then_sync (Promise.observe now (Promise.of_event (upgrade (sockets w ws))))
       (fun request =>
          match check request with
          | Ok r =>
              if is_false r
              then Err (mkError ("Expected Upgrade matching assertion, got: status "
                                 +:+ pretty (statusCode request) +:+ " headers "
                                 +:+ template (JSON_stringify (headers request))))
              else Ok VUndefined
          | Err e => Err e
          end),
     w).

End wsMethods.

(** ** Failing handshakes and cleanup (lines 153-183) *)

Definition reportConnectionShouldFail (ws : nat) (now : time) : op value :=
  fun w =>
    match ws_close ws now VUndefined VUndefined w with
    | (Ok _, w1) =>
        (Promise.rejected now (mkError "Expected connection failure, but succeeded"),
         w1)
    | (Err e, w1) => (Promise.rejected now e, w1)
    end.

Definition checkConnectionError (error : Error) (expectedCode : value) : result value :=
  if negb (truthy expectedCode) then Ok VUndefined
  else
    templated (if String.eqb (typeof expectedCode) "number"
               then expectedCode else VString EmptyString)
      (fun code =>
         let expected :=
           if String.eqb (typeof expectedCode) "number"
           then VString ("Unexpected server response: " +:+ code)
           else expectedCode in
         let actual := message error in
         if negb (strict_eq_string actual expected)
         then templated expected (fun text =>
                Err (mkError ("Expected connection failure with message "
                              +:+ dquote +:+ text +:+ dquote
                              +:+ ", got " +:+ dquote +:+ actual +:+ dquote)))
         else Ok VUndefined).

Definition isOpen (now : time) (s : WebSocket) : bool :=
  match readyState now s with
  | CONNECTING | OPEN => true
  | CLOSING | CLOSED => false
  end.

Definition closeAndRethrow {A} (ws : nat) (now : time) (e : Error) : op A :=
  fun w =>
    if isOpen now (sockets w ws)
    then
      match ws_close ws now VUndefined VUndefined w with
      | (Ok _, w1) => (Promise.rejected now e, w1)
      | (Err e', w1) => (Promise.rejected now e', w1)
      end
    else (Promise.rejected now e, w).

(** ** The pipeline (lines 187-258) *)

(** Callbacks that act on the state: [p.then(f)], [p.then(f, g)] and
    [p.catch(g)].  A callback runs at the instant [p] settles, on the state
    left by what ran before. *)
Module Async.

Definition then2 {S A B} (p : promise A)
    (f : time -> A -> S -> promise B * S)
    (g : time -> Error -> S -> promise B * S) : S -> promise B * S :=
  fun st =>
    match p with
    | Settled t (Ok a) => let '(q, st1) := f t a st in (Promise.observe t q, st1)
    | Settled t (Err e) => let '(q, st1) := g t e st in (Promise.observe t q, st1)
    | Pending => (Pending, st)
    end.

Definition then_ {S A B} (p : promise A)
    (f : time -> A -> S -> promise B * S) : S -> promise B * S :=
  then2 p f (fun t e st => (Promise.rejected t e, st)).

Definition catch_ {S A} (p : promise A)
    (g : time -> Error -> S -> promise A * S) : S -> promise A * S :=
  then2 p (fun t a st => (Promise.resolved t a, st)) g.

End Async.

(** A fluent call: one of the keys of [wsMethods] with its arguments. *)
Inductive call :=
| Send (msg options : value)
| SendText (msg : value)
| SendJson (msg : value)
| SendBinary (msg : list byte)
| Wait (ms : Z)
| Exec (fn : nat -> time -> op value)
| ExpectMessage (conversion : payload -> result value) (check : Check_)
                (timeout : option Z)
| ExpectText (expected : Expected) (timeout : option Z)
| ExpectJson (check : Check_) (timeout : option Z)
| ExpectBinary (expected : ExpectedBinary) (timeout : option Z)
| Close (code message : value)
| ExpectClosed (expectedCode expectedMessage : value)
| ExpectUpgrade (check : UpgradeResponse -> result value).

(** [fn(ws, ...args)] for the method a call names: the call hands back
    a promise, or throws before it does.  [sendText] throws what
    [String(msg)] throws and [close] what the transport's [close] throws.
    The other methods do not throw on the arguments of a [call]: [exec],
    [expectMessage], [expectClosed] and [expectUpgrade] are [async];
    [send], [sendJson] and [sendBinary] go straight to [sendWithError],
    where the executor of the promise takes what [ws.send] throws;
    [expectText] and [expectBinary] only prepare the check on their way
    to [expectMessage]. *)
Definition invoke `{Builtins} (c : call) (ws : nat) (now : time) : attempt value :=
  match c with
  | Send msg options => returns (wsMethods.send ws now msg options)
  | SendText msg => wsMethods.sendText ws now msg
  | SendJson msg => returns (wsMethods.sendJson ws now msg)
  | SendBinary msg => returns (wsMethods.sendBinary ws now msg)
  | Wait ms => returns (wsMethods.wait ws now ms)
  | Exec fn => returns (wsMethods.exec ws now fn)
  | ExpectMessage conversion check timeout =>
      returns (wsMethods.expectMessage ws now conversion check timeout)
  | ExpectText expected timeout => returns (wsMethods.expectText ws now expected timeout)
  | ExpectJson check timeout => returns (wsMethods.expectJson ws now check timeout)
  | ExpectBinary expected timeout =>
      returns (wsMethods.expectBinary ws now expected timeout)
  | Close code message => wsMethods.close ws now code message
  | ExpectClosed expectedCode expectedMessage =>
      returns (wsMethods.expectClosed ws now expectedCode expectedMessage)
  | ExpectUpgrade check => returns (wsMethods.expectUpgrade ws now check)
  end.

(** What an observer of the pipeline notes down: a step's operation is
    invoked, a link fulfils, a link rejects after the race, a call throws
    before the race is built.  The source keeps no such record; the
    journal only makes the order of execution a value. *)
Inductive event :=
| Invoked (t : time) (c : call)
| Passed (t : time) (c : call)
| Failed (t : time) (c : call) (e : Error)
| Threw (t : time) (c : call) (e : Error).

Record runtime := mkRuntime {
  heap : world;
  journal : list event;
}.

Definition note (ev : event) (st : runtime) : runtime :=
  mkRuntime (heap st) (journal st ++ [ev]).

Definition lift {A} (o : world -> A * world) : runtime -> A * runtime :=
  fun st => let '(a, w) := o (heap st) in (a, mkRuntime w (journal st)).

(** The variable [chain] of [wsRequest]: the promise of the work queued so
    far, with the state in which that work leaves the program. *)
Definition Chain : Type := promise nat * runtime.

(** [ws.firstError]: rejects with the first error that follows 'open'. *)
Definition firstErrorPromise {A} (s : WebSocket) : promise A :=
  Promise.then_ (Promise.of_event (firstError s)) (fun t e => Promise.rejected t e).

(** [wsRequest] (lines 187-226): the socket [ws] is registered, and the
    chain starts as the promise that fulfils with [ws] on 'open' and
    rejects on an 'error' before it.  The listeners that feed the queues
    are taken for installed: the fields of the socket say what they hear. *)
Definition wsRequest (ws : nat) (w : world) : Chain :=
  (Promise.then_sync (opened (sockets w ws)) (fun _ => Ok ws),
   mkRuntime {| sockets := sockets w; clientSockets := {[ws]} ∪ clientSockets w;
                closeRefuses := closeRefuses w |} []).

(** [thenDo(fn)(...args)] (lines 233-241): the new value of [chain].
    When [fn(ws, ...args)] throws, the callback of [chain.then] throws
    with it: the race and the [catch] with [closeAndRethrow] are never
    built.  The [note]s are the observer's. *)
Definition thenDo `{Builtins} (c : call) (chain : Chain) : Chain :=
  Async.then_ (fst chain)
    (fun t ws st =>
       match lift (invoke c ws t) (note (Invoked t c) st) with
       | (Err e, st1) => (Promise.rejected t e, note (Threw t c e) st1)
       | (Ok p, st1) =>
           let raced :=
             Promise.race
               [Promise.observe t p;
                Promise.observe t (firstErrorPromise (sockets (heap st1) ws))] in
           let '(q, st2) :=
             Async.catch_ raced
               (fun t' e st' =>
                  lift (closeAndRethrow ws t' e) (note (Failed t' c e) st'))
               st1 in
           Async.then_ q
             (fun t' _ st' => (Promise.resolved t' ws, note (Passed t' c) st')) st2
       end)
    (snd chain).

(** A script: the calls in the order in which the test makes them. *)
Definition pipeline `{Builtins} (cs : list call) (chain : Chain) : Chain :=
  foldl (fun ch c => thenDo c ch) chain cs.

(** [chain.expectConnectionError] (lines 247-255); [expectedCode]
    defaults to [null]. *)
Definition expectConnectionError (expectedCode : value) (chain : Chain)
  : promise value * runtime :=
  let expectedCode := match expectedCode with VUndefined => VNull | v => v end in
  Async.then2 (fst chain)
    (fun t ws => lift (reportConnectionShouldFail ws t))
    (fun t error st => (Settled t (checkConnectionError error expectedCode), st))
    (snd chain).

(** ** Closing what is left (lines 331-336) *)

(** [[...clientSockets]] at [now]: the 'close' handler (line 215) has
    taken out the sockets whose 'close' event fired. *)
Definition registered (now : time) (w : world) : list nat :=
  List.filter (fun ws => negb (closeFired now (sockets w ws)))
              (elements (clientSockets w)).

(** [request.closeAll].  The order in which a [Set] is walked does not
    show: [close] on one socket leaves the others as they are. *)
Definition closeAll (now : time) (w : world) : nat * world :=
  let remaining := List.filter (fun ws => isOpen now (sockets w ws)) (registered now w) in
  let w1 := {| sockets := sockets w; clientSockets := ∅;
               closeRefuses := closeRefuses w |} in
  let w2 := foldl (fun w' ws => snd (ws_close ws now VUndefined VUndefined w'))
              w1 remaining in
  (length remaining, w2).

(** ** The address of the socket (lines 6-19) *)

(** The [server] argument of [request]: a base URL, or a server object
    (referred to by number). *)
Inductive ServerArg :=
| ServerUrl (url : string)
| ServerHandle (srv : nat).

(** [httpPath.replace(REGEXP_HTTP, 'ws')], with [REGEXP_HTTP = /^http/]. *)
Definition replace_http (httpPath : string) : string :=
  if String.prefix "http" httpPath
  then "ws" +:+ String.substring 4 (String.length httpPath - 4) httpPath
  else httpPath.

(** A peer socket of the server under test: [leaves] is the instant at
    which its 'close' event takes it out of [serverSockets] ([None]: it
    never closes by itself). *)
Record Peer := mkPeer { peerId : nat; leaves : option time }.

(** [sockets.has(s)] at [t]. *)
Definition has (t : time) (s : Peer) : bool :=
  match leaves s with
  | Some tl => t <? tl
  | None => true
  end.

(** The entry of [serverTestConfigs] for one server, with the set
    [serverSockets] that its 'connection' listener fills (line 293). *)
Record TestConfig := mkTestConfig {
  shutdownDelay : Z;
  serverSockets : list Peer;
}.

(** A server under test.  [listening] tells whether [server.address()]
    is non-null; [serverAddress] is supertest's
    [Test.prototype.serverAddress(server, path)]; the last three fields
    record the calls of [s.end()] (peer and instant), of the server's own
    [close] (with or without a callback) and of callbacks run by the
    wrapper itself. *)
Record HttpServer := mkHttpServer {
  listening : bool;
  serverAddress : string -> string;
  ended : list (nat * time);
  originalCloseCalls : list bool;
  callbacksRun : nat;
}.

(** The server side of the program: the servers and the [WeakMap]
    [serverTestConfigs]. *)
Record backstage := mkBackstage {
  servers : nat -> HttpServer;
  serverTestConfigs : gmap nat TestConfig;
}.

Definition getServerWsPath (b : backstage) (server : ServerArg) (path : string)
  : result string :=
  match server with
  | ServerUrl url => Ok (replace_http (url +:+ path))
  | ServerHandle srv =>
      if negb (listening (servers b srv))
      then Err (mkError "Server was closed")
      else Ok (replace_http (serverAddress (servers b srv) path))
  end.

(** ** Shutting the server down (lines 260-311) *)

(** The polling loop of [performShutdown] (lines 269-275) for one peer,
    entered at [t]: the instant at which [s.end()] is called, if it is.
    [setTimeout(r, 20)] resumes twenty milliseconds later. *)
Equations? pollUntil (expire : time) (s : Peer) (t : time) : option time
  by wf (Z.to_nat (expire - t)) lt :=
  pollUntil expire s t with Z_lt_dec t expire := {
    | left _ => if has t s then pollUntil expire s (t + 20) else None
    | right _ => if has t s then Some t else None }.
Proof. lia. Qed.

(** [performShutdown(sockets, shutdownDelay)] called at [now]: the calls
    of [s.end()] it makes, each with its instant. *)
Definition performShutdown (now : time) (sockets : list Peer) (shutdownDelay : Z)
  : list (nat * time) :=
  let present := List.filter (has now) sockets in
  if shutdownDelay <=? 0
  then map (fun s => (peerId s, now)) present
  else
    let expire := now + shutdownDelay in
    omap (fun s => (fun t => (peerId s, t)) <$> pollUntil expire s now) present.

(** [registerShutdown(server, shutdownDelay)] (lines 281-311).  The
    replaced [server.close] is [server_close] below. *)
Definition registerShutdown (srv : nat) (delay : Z) (b : backstage) : backstage :=
  match serverTestConfigs b !! srv with
  | Some testConfig =>
      mkBackstage (servers b)
        (<[srv := mkTestConfig (Z.max (shutdownDelay testConfig) delay)
                               (serverSockets testConfig)]> (serverTestConfigs b))
  | None =>
      mkBackstage (servers b)
        (<[srv := mkTestConfig delay []]> (serverTestConfigs b))
  end.

(** The listener of line 294: a peer connects to a registered server. *)
Definition connection (srv : nat) (s : Peer) (b : backstage) : backstage :=
  mkBackstage (servers b)
    (alter (fun c => mkTestConfig (shutdownDelay c) (serverSockets c ++ [s]))
           srv (serverTestConfigs b)).

(** The server's own [close(callback)]: it stops listening. *)
Definition server_originalClose (callback : bool) (s : HttpServer) : HttpServer :=
  mkHttpServer false (serverAddress s) (ended s)
    (originalCloseCalls s ++ [callback]) (callbacksRun s).

(** [server.close(callback)] called at [now]: the wrapper of lines 302-310
    once the server is registered, the server's own [close] before. *)
Definition server_close (srv : nat) (now : time) (callback : bool) (b : backstage)
  : backstage :=
  let s := servers b srv in
  match serverTestConfigs b !! srv with
  | Some testConfig =>
      if listening s
      then
        let calls := performShutdown now (serverSockets testConfig)
                       (shutdownDelay testConfig) in
        let s1 := mkHttpServer (listening s) (serverAddress s) (ended s ++ calls)
                    (originalCloseCalls s) (callbacksRun s) in
        mkBackstage (<[srv := server_originalClose callback s1]> (servers b))
          (<[srv := mkTestConfig 0 (serverSockets testConfig)]> (serverTestConfigs b))
      else if callback
      then mkBackstage
             (<[srv := mkHttpServer (listening s) (serverAddress s) (ended s)
                         (originalCloseCalls s) (S (callbacksRun s))]> (servers b))
             (serverTestConfigs b)
      else b
  | None =>
      mkBackstage (<[srv := server_originalClose callback s]> (servers b))
        (serverTestConfigs b)
  end.

(** [request(server, { shutdownDelay })] (lines 313-329): what it does
    before handing out the request object; the option defaults to 0. *)
Definition request (server : ServerArg) (delay : option Z) (b : backstage)
  : result backstage :=
  match server with
  | ServerUrl _ => Ok b
  | ServerHandle srv =>
      if negb (listening (servers b srv))
      then Err (mkError
             "Server must be listening: beforeEach((done) => server.listen(0, done));")
      else Ok (registerShutdown srv (default 0 delay) b)
  end.

(** [request(server, ...)] called once for each delay of a list. *)
Definition requests (srv : nat) (delays : list Z) (b : backstage) : result backstage :=
  foldl (fun r d => match r with
                    | Ok b' => request (ServerHandle srv) (Some d) b'
                    | Err e => Err e
                    end) (Ok b) delays.

(** ** Reading a socket's future *)

(** Does [p] settle strictly after [t], or never? *)
Definition settlesAfter {A} (t : time) (p : promise A) : bool :=
  match p with
  | Settled tp _ => t <? tp
  | Pending => true
  end.

(** Does the event happen strictly after [t], or never? *)
Definition happensAfter {A} (t : time) (ev : option (time * A)) : bool :=
  match ev with
  | Some (te, _) => t <? te
  | None => true
  end.

(** The message an expectation started at [now] receives, and when: the
    oldest one, provided it is there strictly before the 'close' event and
    before the timer, if one is armed. *)
Definition nextMessage (now : time) (s : WebSocket) (timeout : option Z)
  : option (time * payload) :=
  match messages s with
  | (ta, m) :: _ =>
      let t := Z.max now ta in
      if happensAfter t (closed s)
         && settlesAfter t (timeoutTimer now timeout)
      then Some (t, m) else None
  | [] => None
  end.

(** Neither a message nor the 'close' event by [deadline]. *)
Definition silentUntil (deadline : time) (s : WebSocket) : bool :=
  happensAfter deadline (head (messages s)) && happensAfter deadline (closed s).

(** Nothing at all is ever going to happen on the socket. *)
Definition silentForever (s : WebSocket) : bool :=
  match messages s, closed s, firstError s with
  | [], None, None => true
  | _, _, _ => false
  end.

(** [expectation c conversion check timeout]: the call [c] is a message
    expectation, which runs [expectMessage] with these arguments. *)
Inductive expectation `{Builtins}
  : call -> (payload -> result value) -> Check_ -> option Z -> Prop :=
| expectation_message conversion check timeout :
    expectation (ExpectMessage conversion check timeout) conversion check timeout
| expectation_text expected timeout :
    expectation (ExpectText expected timeout) msgText (textCheck expected) timeout
| expectation_json check timeout :
    expectation (ExpectJson check timeout) msgJson check timeout
| expectation_binary expected timeout :
    expectation (ExpectBinary expected timeout) msgBinary (binaryCheck expected) timeout.

(** A script run one step at a time: [runs t ws w cs j p w'] says that
    the calls [cs], made on a chain that fulfilled with [ws] at [t] in the
    world [w], leave the journal [j], the promise [p] and the world [w'].
    The operation of a step is invoked on [ws], at the instant at which
    the link before it fulfilled and in the world which that link left.
    The link of an operation that returned the promise [p] settles with
    the race of [p] against [ws.firstError]: when the race fulfils, with
    whatever value [v], the next step starts, again on [ws]; when it
    rejects, the connection is closed if it is open and the run is over;
    while it is pending, nothing goes on.  When the call of the operation
    throws, the run is over at once. *)
Inductive runs `{Builtins}
  : time -> nat -> world -> list call -> list event -> promise nat -> world -> Prop :=
| runs_done t ws w :
    runs t ws w [] [] (Settled t (Ok ws)) w
| runs_threw t ws w c cs e w1 :
    invoke c ws t w = (Err e, w1) ->
    runs t ws w (c :: cs) [Invoked t c; Threw t c e] (Settled t (Err e)) w1
| runs_stuck t ws w c cs p w1 :
    invoke c ws t w = (Ok p, w1) ->
    Promise.race [Promise.observe t p;
                  Promise.observe t (firstErrorPromise (sockets w1 ws))] = Pending ->
    runs t ws w (c :: cs) [Invoked t c] Pending w1
| runs_failed t t' ws w c cs p w1 e :
    invoke c ws t w = (Ok p, w1) ->
    Promise.race [Promise.observe t p;
                  Promise.observe t (firstErrorPromise (sockets w1 ws))]
    = Settled t' (Err e) ->
    t <= t' ->
    runs t ws w (c :: cs) [Invoked t c; Failed t' c e] (Settled t' (Err e))
      (if isOpen t' (sockets w1 ws)
       then snd (ws_close ws t' VUndefined VUndefined w1) else w1)
| runs_passed t t' ws w c cs p w1 v j q w2 :
    invoke c ws t w = (Ok p, w1) ->
    Promise.race [Promise.observe t p;
                  Promise.observe t (firstErrorPromise (sockets w1 ws))]
    = Settled t' (Ok v) ->
    t <= t' ->
    runs t' ws w1 cs j q w2 ->
    runs t ws w (c :: cs) (Invoked t c :: Passed t' c :: j) q w2.

(** ** Reading a script *)

(** [sends c msg options]: the call [c] is one of the four sends, and
    hands [msg] and [options] to [sendWithError]. *)
Inductive sends `{Builtins} : call -> value -> value -> Prop :=
| sends_raw msg options : sends (Send msg options) msg options
| sends_text msg text :
    String_ msg = Ok text -> sends (SendText msg) (VString text) VUndefined
| sends_json msg :
    sends (SendJson msg)
      (match JSON_stringify msg with Some s => VString s | None => VUndefined end)
      VUndefined
| sends_binary msg :
    sends (SendBinary msg) (VBytes (normaliseBinary msg))
      (VObject [("binary"%string, VBool true)]).

(** The transport confirms every send. *)
Definition reliable (s : WebSocket) : Prop :=
  forall now msg options, exists tc, transportSend s now msg options = Settled tc (Ok tt).

(** [accepts c m]: the call [c] is a message expectation without timeout
    that the payload [m], once received, satisfies. *)
Definition accepts `{Builtins} (c : call) (m : payload) : Prop :=
  exists conversion check v r,
    expectation c conversion check None
    /\ conversion m = Ok v
    /\ checkReceived check v = Ok r.

(** Every call but [exec], which runs the caller's own code. *)
Definition notExec (c : call) : bool :=
  match c with
  | Exec _ => false
  | _ => true
  end.

(** [touchesOnly ws w w']: from [w] to [w'] no socket other than [ws]
    changed, on [ws] the transport's description is the same, and the
    registry lost at most [ws]. *)
Definition touchesOnly (ws : nat) (w w' : world) : Prop :=
  (forall ws', ws' <> ws -> sockets w' ws' = sockets w ws')
  /\ lineState (sockets w' ws) = lineState (sockets w ws)
  /\ closed (sockets w' ws) = closed (sockets w ws)
  /\ firstError (sockets w' ws) = firstError (sockets w ws)
  /\ clientSockets w' ⊆ clientSockets w
  /\ clientSockets w ∖ {[ws]} ⊆ clientSockets w'.

(** The arguments of [expectClosed], absent or given. *)
Definition codeArgument (o : option Z) : value :=
  match o with
  | Some z => VNumber (Num z)
  | None => VUndefined
  end.

Definition messageArgument (o : option string) : value :=
  match o with
  | Some m => VString m
  | None => VUndefined
  end.

(** Waiting times add up: the instant at which a run of [wait]s is over. *)
Definition afterWaits (t : time) (delays : list Z) : time :=
  foldl (fun t' ms => t' + Promise.delay ms) t delays.

(** Every call but [exec] and [close]. *)
Definition plain (c : call) : bool :=
  match c with
  | Exec _ | Close _ _ => false
  | _ => true
  end.

(** Reading two hexadecimal digits back. *)
Definition unhexdigit (c : ascii) : option N :=
  match String.index 0 (String c EmptyString) "0123456789abcdef" with
  | Some n => Some (N.of_nat n)
  | None => None
  end.

Definition unhex (s : string) : option byte :=
  match s with
  | String hi (String lo EmptyString) =>
      match unhexdigit hi, unhexdigit lo with
      | Some h, Some l => Byte.of_N (16 * h + l)
      | _, _ => None
      end
  | _ => None
  end.

(** ** Concrete scenarios *)

Module Scenario.

(** Stand-ins for the black boxes, enough to run scripts on strings. *)
Definition builtins : Builtins :=
  {| JSON_stringify := fun v => match v, String_ v with
                                | VUndefined, _ => None
                                | _, Ok s => Some s
                                | _, Err _ => None
                                end;
     JSON_parse := fun s => Ok (VString s);
     equal := fun a b => match String_ a, String_ b with
                         | Ok x, Ok y => String.eqb x y
                         | _, _ => false
                         end |}.

(** An open connection on which nothing happens and every send is
    confirmed at once. *)
Definition idle : WebSocket :=
  mkWebSocket (fun _ => OPEN) (fun now _ _ => Settled now (Ok tt))
    (Settled 0 (Ok tt)) [] None None None [] [].

(** The same, except that the transport's callback reports [e] five
    milliseconds after each send. *)
Definition failingSend (e : Error) : WebSocket :=
  mkWebSocket (fun _ => OPEN) (fun now _ _ => Settled (now + 5) (Err e))
    (Settled 0 (Ok tt)) [] None None None [] [].

(** The same as [idle], with payloads to come. *)
Definition receiving (q : list (time * payload)) : WebSocket :=
  set_messages q idle.

(** The validation that the transport [ws] applies to a close code: a
    number from 1000 to 1014 other than 1004, 1005 and 1006, or from 3000
    to 4999. *)
Definition validation (ws : nat) (now : time) (code message : value) : option Error :=
  match code with
  | VNumber (Num z) =>
      if ((1000 <=? z) && (z <=? 1014)
          && negb (z =? 1004) && negb (z =? 1005) && negb (z =? 1006))
         || ((3000 <=? z) && (z <=? 4999))
      then None
      else Some (mkError "First argument must be a valid error code number")
  | _ => Some (mkError "First argument must be a valid error code number")
  end.

(** A world in which every socket behaves as [s]. *)
Definition allLike (s : WebSocket) : world := mkWorld (fun _ => s) ∅ validation.

Definition fresh (w : world) : runtime := mkRuntime w [].

End Scenario.

(** * Properties *)

(** ** Promises *)

Lemma is_false_spec (v : value) : is_false v = true <-> v = VBool false.
Proof.
  split.
  - destruct v as [ | |[|]| | | | | ]; simpl; congruence.
  - intros ->. reflexivity.
Qed.

Lemma settlesAfter_observe {A} (t now : time) (p : promise A) :
  settlesAfter t p = true -> settlesAfter t (Promise.observe now p) = true.
Proof.
  destruct p as [tp r|]; simpl; [|reflexivity].
  rewrite !Z.ltb_lt. lia.
Qed.

Lemma settlesAfter_then {A B} (t : time) (p : promise A) (f : time -> A -> promise B) :
  settlesAfter t p = true -> settlesAfter t (Promise.then_ p f) = true.
Proof.
  destruct p as [tp [a|e]|]; simpl; try reflexivity; [|easy].
  destruct (f tp a) as [tq r|]; simpl; [|reflexivity].
  rewrite !Z.ltb_lt. lia.
Qed.

Lemma settlesAfter_of_event {A} (t : time) (ev : option (time * A)) :
  settlesAfter t (Promise.of_event ev) = happensAfter t ev.
Proof. destruct ev as [[te a]|]; reflexivity. Qed.

Lemma first_wins {A} (t : time) (r : result A) (q : promise A) :
  settlesAfter t q = true -> Promise.first (Settled t r) q = Settled t r.
Proof.
  destruct q as [tq rq|]; simpl; [|reflexivity].
  intros Hlt. apply Z.ltb_lt in Hlt.
  destruct (Z.ltb_spec tq t); [lia | reflexivity].
Qed.

Lemma first_loses {A} (t : time) (r : result A) (p : promise A) :
  settlesAfter t p = true -> Promise.first p (Settled t r) = Settled t r.
Proof.
  destruct p as [tp rp|]; simpl; [|reflexivity].
  intros Hlt. apply Z.ltb_lt in Hlt.
  destruct (Z.ltb_spec t tp); [reflexivity | lia].
Qed.

(** The promise listed first wins a race when the others settle later. *)
Lemma race_head_wins {A} (t : time) (r : result A) (ps : list (promise A)) :
  forallb (settlesAfter t) ps = true ->
  Promise.race (Settled t r :: ps) = Settled t r.
Proof.
  intros Hall. unfold Promise.race. simpl. apply first_wins.
  induction ps as [|p ps IH]; [reflexivity|].
  simpl in Hall. apply andb_true_iff in Hall as [Hp Hps]. simpl.
  specialize (IH Hps).
  destruct p as [tp rp|]; [|exact IH].
  destruct (foldr Promise.first Pending ps) as [tq rq|]; simpl; [|exact Hp].
  destruct (tq <? tp); [exact IH | exact Hp].
Qed.

(** ** Sending *)

(** What [sendWithError] does with an error reported by the transport's
    callback, when the error is not the transport's "not open" one: the
    handler of the [catch] (lines 63-68) falls off its end, and the
    promise fulfils. *)
Lemma sendWithError_other_error (ws : nat) (now tc : time) (msg options : value)
    (w : world) (err : Error) :
  transportSend (sockets w ws) now msg options = Settled tc (Err err) ->
  includes "WebSocket is not open" (message err) = false ->
  fst (sendWithError ws now msg options w) = Settled (Z.max now tc) (Ok VUndefined).
Proof.
  intros Hsend Hother. unfold sendWithError, ws_send. simpl.
  rewrite Hsend. simpl. rewrite Hother, andb_false_r. simpl.
  f_equal. lia.
Qed.

(** The same error, when it is the "not open" one and the 'close' event
    fires: the promise rejects, with the close code and message. *)
Lemma sendWithError_not_open (ws : nat) (now tc tclose : time) (msg options : value)
    (w : world) (err : Error) (ev : CloseEvent) :
  transportSend (sockets w ws) now msg options = Settled tc (Err err) ->
  includes "WebSocket is not open" (message err) = true ->
  closed (sockets w ws) = Some (tclose, ev) ->
  exists e, fst (sendWithError ws now msg options w)
            = Settled (Z.max (Z.max now tc) tclose) (Err e).
Proof.
  intros Hsend Hnot Hclosed. unfold sendWithError, ws_send. simpl.
  rewrite Hsend. simpl. rewrite Hnot.
  assert (Hne : negb (String.eqb (message err) EmptyString) = true).
  { destruct (message err); [discriminate Hnot | reflexivity]. }
  rewrite Hne. simpl. rewrite fn_lookup_insert. simpl. rewrite Hclosed. simpl.
  eexists. f_equal. lia.
Qed.

(** C1 (the code departs from the claim): the transport's send callback
    reports the error "boom" for [sendText('hi')]; the promise returned by
    the send primitive fulfils instead of rejecting, the link of the
    pipeline passes and the terminal promise fulfils with the connection:
    the failure is swallowed. *)
Theorem send_failure_is_swallowed :
  let w := Scenario.allLike (Scenario.failingSend (mkError "boom")) in
  let done := @pipeline Scenario.builtins [SendText (VString "hi")] (wsRequest 0 w) in
  fst (wsMethods.sendText 0 10 (VString "hi") w) = Ok (Settled 15 (Ok VUndefined))
  /\ fst done = Settled 5 (Ok 0%nat)
  /\ journal (snd done) = [Invoked 0 (SendText (VString "hi"));
                           Passed 5 (SendText (VString "hi"))].
Proof. vm_compute. auto. Qed.

(** A number that a double holds exactly prints as its decimal digits. *)
Lemma number_to_string_safe (z : Z) :
  Z.abs z <= MAX_SAFE_INTEGER -> number_to_string (Num z) = pretty z.
Proof.
  intros Hsafe. unfold number_to_string, MAX_SAFE_INTEGER in *.
  destruct (Z.eqb_spec z 0) as [->|Hz]; [reflexivity|].
  assert (Hbits : Z.log2 (Z.abs z) + 1 <= 53).
  { assert (Z.log2 (Z.abs z) < 53); [|lia].
    apply Z.log2_lt_pow2; [lia|]. change (2 ^ 53) with 9007199254740992. lia. }
  unfold toDouble. destruct (Z.leb_spec (Z.log2 (Z.abs z) + 1) 53); [|lia].
  unfold render, MAX_SAFE_INTEGER. destruct (Z.leb_spec (Z.abs z) 9007199254740991); [|lia].
  destruct z as [|p|p]; try contradiction; reflexivity.
Qed.

(** A value that is not an object has a string form. *)
Lemma String_primitive (msg : value) :
  typeof msg <> "object"%string -> exists text, String_ msg = Ok text.
Proof.
  destruct msg as [ | |[|]|n|s|b|l|fields]; simpl; intros Hprim;
    try contradiction; eauto.
Qed.

(** C10 as stated fails: [sendText] given the object [{ toString: null }]
    throws the [TypeError] of [String(msg)] before anything is handed to
    the transport; the step fails because of its payload, and the chain
    rejects with that error. *)
Lemma sendText_throws_on_unprintable :
  let msg := VObject [("toString"%string, VNull)] in
  let w := Scenario.allLike Scenario.idle in
  let unprintable := mkError "Cannot convert object to primitive value" in
  fst (wsMethods.sendText 0 3 msg w) = Err unprintable
  /\ sent (sockets (snd (wsMethods.sendText 0 3 msg w)) 0%nat) = []
  /\ fst (@pipeline Scenario.builtins [SendText msg]
            (Settled 3 (Ok 0%nat), Scenario.fresh w))
     = Settled 3 (Err unprintable).
Proof. repeat split; reflexivity. Qed.

(** C10, amended: [sendText] converts its argument with [String] before
    it sends.  Whenever the conversion succeeds, the transport is handed
    exactly one frame, the string form with no options, and [sendText]
    hands back the promise of that send, which fulfils when the transport
    confirms the delivery; when the conversion throws, [sendText] throws
    the same error and nothing is sent.  The conversion succeeds on every
    argument that is not an object, and on [null]; a string is sent as it
    is, and the string forms of [undefined], [null], the booleans, [NaN],
    the integers up to [MAX_SAFE_INTEGER] (their decimal digits) and the
    objects without a [toString] of their own are the usual ones; a
    number as large as 10^21 goes out in exponent form. *)
Theorem sendText_sends_string_form (ws : nat) (now : time) (w : world) :
  (forall msg text,
      String_ msg = Ok text ->
      fst (wsMethods.sendText ws now msg w)
      = Ok (fst (sendWithError ws now (VString text) VUndefined w))
      /\ sent (sockets (snd (wsMethods.sendText ws now msg w)) ws)
         = sent (sockets w ws) ++ [(VString text, VUndefined)]
      /\ (forall tc,
            transportSend (sockets w ws) now (VString text) VUndefined
            = Settled tc (Ok tt) ->
            fst (wsMethods.sendText ws now msg w)
            = Ok (Settled (Z.max now tc) (Ok VUndefined))))
  /\ (forall msg e, String_ msg = Err e -> wsMethods.sendText ws now msg w = (Err e, w))
  /\ (forall msg, typeof msg <> "object"%string -> exists text, String_ msg = Ok text)
  /\ (forall s, String_ (VString s) = Ok s)
  /\ String_ VUndefined = Ok "undefined"%string
  /\ String_ VNull = Ok "null"%string
  /\ (forall b, String_ (VBool b) = Ok (if b then "true" else "false")%string)
  /\ String_ (VNumber NaN) = Ok "NaN"%string
  /\ (forall z, Z.abs z <= MAX_SAFE_INTEGER -> String_ (VNumber (Num z)) = Ok (pretty z))
  /\ (forall fields, hasOwn "toString" fields = false ->
                     String_ (VObject fields) = Ok "[object Object]"%string)
  /\ String_ (VNumber (Num (10 ^ 21))) = Ok "1e+21"%string.
Proof.
  split; [|repeat split].
  - intros msg text Htext. unfold wsMethods.sendText, returns. rewrite Htext.
    destruct (sendWithError ws now (VString text) VUndefined w) as [p w1] eqn:Hsend.
    split; [reflexivity|]. split.
    + replace w1 with (snd (sendWithError ws now (VString text) VUndefined w))
        by (rewrite Hsend; reflexivity).
      unfold sendWithError, ws_send. simpl. rewrite fn_lookup_insert. reflexivity.
    + intros tc Hconfirmed. simpl. f_equal.
      replace p with (fst (sendWithError ws now (VString text) VUndefined w))
        by (rewrite Hsend; reflexivity).
      unfold sendWithError, ws_send. simpl. rewrite Hconfirmed. simpl.
      f_equal. lia.
  - intros msg e Hthrows. unfold wsMethods.sendText. rewrite Hthrows. reflexivity.
  - apply String_primitive.
  - intros [|]; reflexivity.
  - intros z Hsafe. simpl. rewrite number_to_string_safe by exact Hsafe. reflexivity.
  - intros fields Hown. simpl. rewrite Hown. reflexivity.
Qed.

Lemma sendText_sends_string_form_witness :
  let w := Scenario.allLike Scenario.idle in
  sent (sockets (snd (wsMethods.sendText 0 3 VNull w)) 0%nat)
    = [(VString "null", VUndefined)]
  /\ fst (wsMethods.sendText 0 3 (VNumber (Num 42)) w)
     = Ok (Settled 3 (Ok VUndefined)).
Proof.
  intros w.
  destruct (sendText_sends_string_form 0 3 w) as (Hsends & _).
  split.
  - exact (proj1 (proj2 (Hsends VNull "null"%string eq_refl))).
  - exact (proj2 (proj2 (Hsends (VNumber (Num 42)) "42"%string eq_refl)) 3 eq_refl).
Defined.

(** ** Expecting the handshake to fail *)

Lemma checkConnectionError_number (error : Error) (N : Z) :
  N <> 0 ->
  checkConnectionError error (VNumber (Num N))
  = if String.eqb (message error)
         ("Unexpected server response: " +:+ number_to_string (Num N))
    then Ok VUndefined
    else Err (mkError ("Expected connection failure with message "
                       +:+ dquote +:+ "Unexpected server response: "
                       +:+ number_to_string (Num N)
                       +:+ dquote +:+ ", got " +:+ dquote +:+ message error
                       +:+ dquote)).
Proof.
  intros HN. unfold checkConnectionError, templated. simpl.
  destruct (Z.eqb_spec N 0) as [->|_]; [contradiction|]. simpl.
  destruct (String.eqb _ _); reflexivity.
Qed.

(** [ws.close()] without arguments is never refused. *)
Lemma ws_close_plain (ws : nat) (now : time) (w : world) :
  ws_close ws now VUndefined VUndefined w
  = (Ok tt,
     {| sockets := alter (originalClose VUndefined VUndefined) ws (sockets w);
        clientSockets := clientSockets w ∖ {[ws]};
        closeRefuses := closeRefuses w |}).
Proof. reflexivity. Qed.

(** The guard of line 159 takes the numbers 0 and [NaN], which are no
    statuses, for an absent status: any rejection is accepted. *)
Example expectConnectionError_falsy_status :
  let rejection := mkError "Unexpected server response: 404" in
  let st := Scenario.fresh (Scenario.allLike Scenario.idle) in
  fst (expectConnectionError (VNumber (Num 0)) (Settled 7 (Err rejection), st))
  = Settled 7 (Ok VUndefined)
  /\ fst (expectConnectionError (VNumber NaN) (Settled 7 (Err rejection), st))
     = Settled 7 (Ok VUndefined).
Proof. split; reflexivity. Qed.

(** C5: when the handshake succeeds, [expectConnectionError] closes the
    connection and fails, whatever was expected.  When the handshake is
    rejected and the expected status is the number [N], a positive
    integer as every HTTP status is, it succeeds exactly when the
    rejection's message is "Unexpected server response: N", with [N]
    printed as the code prints it (in decimal digits up to
    [MAX_SAFE_INTEGER]), and fails with a message showing the expected
    and the actual text otherwise. *)
Theorem expectConnectionError_status (N : Z) (t : time) (st : runtime) (error : Error) :
  0 < N ->
  let response := "Unexpected server response: " +:+ number_to_string (Num N) in
  (forall expectedCode ws,
      expectConnectionError expectedCode (Settled t (Ok ws), st)
      = (Settled t (Err (mkError "Expected connection failure, but succeeded")),
         mkRuntime (snd (ws_close ws t VUndefined VUndefined (heap st))) (journal st)))
  /\ (forall ws,
        closeCalls (sockets (snd (ws_close ws t VUndefined VUndefined (heap st))) ws)
        = closeCalls (sockets (heap st) ws) ++ [(VUndefined, VUndefined)])
  /\ snd (expectConnectionError (VNumber (Num N)) (Settled t (Err error), st)) = st
  /\ (fst (expectConnectionError (VNumber (Num N)) (Settled t (Err error), st))
      = Settled t (Ok VUndefined)
      <-> message error = response)
  /\ (message error <> response ->
      fst (expectConnectionError (VNumber (Num N)) (Settled t (Err error), st))
      = Settled t (Err (mkError ("Expected connection failure with message "
                                 +:+ dquote +:+ response +:+ dquote
                                 +:+ ", got " +:+ dquote
                                 +:+ message error +:+ dquote))))
  /\ (N <= MAX_SAFE_INTEGER -> response = "Unexpected server response: " +:+ pretty N).
Proof.
  intros HN response.
  assert (HN0 : N <> 0) by lia.
  assert (Hrej : fst (expectConnectionError (VNumber (Num N)) (Settled t (Err error), st))
                 = Settled t (checkConnectionError error (VNumber (Num N)))).
  { unfold expectConnectionError, Async.then2. simpl. f_equal. lia. }
  split; [|split; [|split; [|split; [|split]]]].
  - intros expectedCode ws. unfold expectConnectionError, Async.then2, lift,
      reportConnectionShouldFail, Promise.rejected. rewrite ws_close_plain. simpl.
    do 2 f_equal. lia.
  - intros ws. rewrite ws_close_plain. simpl. rewrite fn_lookup_alter. reflexivity.
  - reflexivity.
  - rewrite Hrej, checkConnectionError_number by assumption. fold response.
    destruct (String.eqb_spec (message error) response) as [Heq|Hne].
    + split; auto.
    + split; [discriminate | contradiction].
  - intros Hne. rewrite Hrej, checkConnectionError_number by assumption. fold response.
    destruct (String.eqb_spec (message error) response) as [Heq|_];
      [contradiction | reflexivity].
  - intros Hsafe. unfold response. rewrite number_to_string_safe by lia. reflexivity.
Qed.

Lemma expectConnectionError_status_witness :
  let st := Scenario.fresh (Scenario.allLike Scenario.idle) in
  fst (expectConnectionError (VNumber (Num 404))
         (Settled 7 (Err (mkError "Unexpected server response: 404")), st))
  = Settled 7 (Ok VUndefined)
  /\ fst (expectConnectionError (VNumber (Num 404)) (Settled 7 (Ok 0%nat), st))
     = Settled 7 (Err (mkError "Expected connection failure, but succeeded")).
Proof.
  intros st.
  assert (H404 : 0 < 404) by lia.
  destruct (expectConnectionError_status 404 7 st
              (mkError "Unexpected server response: 404") H404)
    as (Hopen & _ & _ & Hiff & _).
  split.
  - apply Hiff. reflexivity.
  - rewrite (Hopen (VNumber (Num 404)) 0%nat). reflexivity.
Defined.

(** ** Expecting a message *)

(** When the next message is the first thing to happen, [expectMessage]
    converts it and checks it. *)
Lemma expectMessage_received `{Builtins} (ws : nat) (now t : time)
    (conversion : payload -> result value) (check : Check_) (timeout : option Z)
    (w : world) (m : payload) :
  nextMessage now (sockets w ws) timeout = Some (t, m) ->
  fst (wsMethods.expectMessage ws now conversion check timeout w)
  = Settled t (match conversion m with
               | Ok v => checkReceived check v
               | Err e => Err e
               end).
Proof.
  unfold nextMessage, wsMethods.expectMessage.
  destruct (messages (sockets w ws)) as [|[ta m0] q]; [discriminate|].
  simpl BlockingQueue.pop. cbv iota beta.
  destruct (happensAfter _ _ && settlesAfter _ _) eqn:Hfirst; [|discriminate].
  intros [= <- <-].
  apply andb_true_iff in Hfirst as [Hclose Htimer].
  rewrite race_head_wins.
  - unfold Promise.then_sync. simpl.
    destruct (conversion m0) as [v|e]; simpl; f_equal; lia.
  - simpl. rewrite andb_true_r. apply andb_true_iff. split.
    + apply settlesAfter_then, settlesAfter_observe.
      rewrite settlesAfter_of_event. exact Hclose.
    + apply settlesAfter_then. exact Htimer.
Qed.

Lemma invoke_expectation `{Builtins} (c : call) (conversion : payload -> result value)
    (check : Check_) (timeout : option Z) (ws : nat) (now : time) :
  expectation c conversion check timeout ->
  invoke c ws now = returns (wsMethods.expectMessage ws now conversion check timeout).
Proof. intros Hc. destruct Hc; reflexivity. Qed.

Lemma fst_returns {A} (o : op A) (w : world) : fst (returns o w) = Ok (fst (o w)).
Proof. unfold returns. destruct (o w). reflexivity. Qed.

Lemma snd_returns {A} (o : op A) (w : world) : snd (returns o w) = snd (o w).
Proof. unfold returns. destruct (o w). reflexivity. Qed.

Lemma returns_eq {A} (o : op A) (w : world) : returns o w = (Ok (fst (o w)), snd (o w)).
Proof. unfold returns. destruct (o w). reflexivity. Qed.

(** C6: a message expectation whose check is a function [f] receives a
    message that converts to [v], and [f v] returns [r].  The step fails
    exactly when [r] is the literal [false]; with every other value
    returned ([undefined], truthy or not) it passes. *)
Theorem function_check_fails_on_false_only `{Builtins} (c : call)
    (conversion : payload -> result value) (f : value -> result value)
    (em : option string) (timeout : option Z) (ws : nat) (now t : time)
    (w : world) (m : payload) (v r : value) :
  expectation c conversion (CheckFunction f em) timeout ->
  nextMessage now (sockets w ws) timeout = Some (t, m) ->
  conversion m = Ok v ->
  f v = Ok r ->
  ((exists e, fst (invoke c ws now w) = Ok (Settled t (Err e))) <-> r = VBool false)
  /\ (r = VBool false ->
      fst (invoke c ws now w)
      = Ok (Settled t (Err (mkError ("Expected message "
                                     +:+ stringify_check (CheckFunction f em)
                                     +:+ ", got " +:+ stringify v)))))
  /\ (r <> VBool false -> fst (invoke c ws now w) = Ok (Settled t (Ok VUndefined))).
Proof.
  intros Hc Hnext Hconv Hf.
  rewrite (invoke_expectation _ _ _ _ ws now Hc), fst_returns.
  rewrite (expectMessage_received _ _ _ _ _ _ _ _ Hnext), Hconv.
  unfold checkReceived. rewrite Hf.
  destruct (is_false r) eqn:Hr.
  - apply is_false_spec in Hr. repeat split; eauto. contradiction.
  - assert (Hne : r <> VBool false).
    { intros Heq. apply is_false_spec in Heq. congruence. }
    repeat split; auto; try contradiction.
    intros [e He]. discriminate He.
Qed.

Lemma function_check_fails_on_false_only_witness :
  let w := Scenario.allLike (Scenario.receiving [(4, PText "hello")]) in
  let returning (r : value) :=
    ExpectText (ExpCheck (CheckFunction (fun _ => Ok r) None)) None in
  fst (@invoke Scenario.builtins (returning VUndefined) 0%nat 1 w)
  = Ok (Settled 4 (Ok VUndefined))
  /\ fst (@invoke Scenario.builtins (returning (VBool false)) 0%nat 1 w)
     = Ok (Settled 4 (Err (mkError "Expected message matching function, got hello"))).
Proof.
  intros w returning. split.
  - refine (proj2 (proj2 (@function_check_fails_on_false_only Scenario.builtins
      (returning VUndefined) msgText (fun _ => Ok VUndefined) None None 0%nat 1 4 w
      (PText "hello") (VString "hello") VUndefined _ _ _ _)) _);
      try reflexivity; [constructor | discriminate].
  - refine (proj1 (proj2 (@function_check_fails_on_false_only Scenario.builtins
      (returning (VBool false)) msgText (fun _ => Ok (VBool false)) None None 0%nat 1 4 w
      (PText "hello") (VString "hello") (VBool false) _ _ _ _)) _);
      try reflexivity. exact (@expectation_text Scenario.builtins _ _).
Defined.

(** C7: with no expected value, [expectText] passes on every text message
    and fails with "Expected text message, got object" on every binary
    one; [expectBinary] passes on every binary message and fails with
    "Expected binary message, got text" on every text one. *)
Theorem type_only_expectations `{Builtins} (ws : nat) (now t : time)
    (timeout : option Z) (w : world) (m : payload) :
  nextMessage now (sockets w ws) timeout = Some (t, m) ->
  fst (wsMethods.expectText ws now (ExpCheck (CheckValue VUndefined)) timeout w)
  = Settled t (match m with
               | PText _ => Ok VUndefined
               | PBinary _ => Err (mkError "Expected text message, got object")
               end)
  /\ fst (wsMethods.expectBinary ws now BinNothing timeout w)
     = Settled t (match m with
                  | PText _ => Err (mkError "Expected binary message, got text")
                  | PBinary _ => Ok VUndefined
                  end).
Proof.
  intros Hnext. unfold wsMethods.expectText, wsMethods.expectBinary.
  rewrite !(expectMessage_received _ _ _ _ _ _ _ _ Hnext).
  destruct m; split; reflexivity.
Qed.

Lemma type_only_expectations_witness :
  let text := Scenario.allLike (Scenario.receiving [(4, PText "hello")]) in
  let binary := Scenario.allLike (Scenario.receiving [(4, PBinary [x0a; x14])]) in
  fst (@wsMethods.expectText Scenario.builtins 0%nat 1
         (ExpCheck (CheckValue VUndefined)) None text) = Settled 4 (Ok VUndefined)
  /\ fst (@wsMethods.expectText Scenario.builtins 0%nat 1
            (ExpCheck (CheckValue VUndefined)) None binary)
     = Settled 4 (Err (mkError "Expected text message, got object")).
Proof.
  intros text binary. split.
  - refine (proj1 (@type_only_expectations Scenario.builtins 0%nat 1 4 None text
                     (PText "hello") _)). reflexivity.
  - refine (proj1 (@type_only_expectations Scenario.builtins 0%nat 1 4 None binary
                     (PBinary [x0a; x14]) _)). reflexivity.
Defined.

(** ** The pipeline *)

Lemma first_pending_r {A} (p : promise A) : Promise.first p Pending = p.
Proof. destruct p; reflexivity. Qed.

Lemma first_observed_ge {A} (t t' : time) (p q : promise A) (r : result A) :
  Promise.first (Promise.observe t p) (Promise.observe t q) = Settled t' r -> t <= t'.
Proof.
  destruct p as [tp rp|], q as [tq rq|]; simpl; try discriminate.
  - destruct (_ <? _); intros [= <- _]; lia.
  - intros [= <- _]. lia.
  - intros [= <- _]. lia.
Qed.

(** One link, spelled out: what [thenDo] appends to a chain that fulfils
    with [ws] at [t], when the call of the operation returns a promise. *)
Lemma thenDo_returned `{Builtins} (c : call) (t : time) (ws : nat) (st : runtime)
    (p : promise value) (w1 : world) :
  invoke c ws t (heap st) = (Ok p, w1) ->
  thenDo c (Settled t (Ok ws), st)
  = match Promise.race [Promise.observe t p;
                        Promise.observe t (firstErrorPromise (sockets w1 ws))] with
    | Settled t' (Ok _) =>
        (Settled t' (Ok ws),
         mkRuntime w1 (journal st ++ [Invoked t c; Passed t' c]))
    | Settled t' (Err e) =>
        (Settled t' (Err e),
         mkRuntime (if isOpen t' (sockets w1 ws)
                    then snd (ws_close ws t' VUndefined VUndefined w1) else w1)
                   (journal st ++ [Invoked t c; Failed t' c e]))
    | Pending => (Pending, mkRuntime w1 (journal st ++ [Invoked t c]))
    end.
Proof.
  intros Hinvoke.
  unfold thenDo, Async.then_, Async.catch_, Async.then2, lift, note. simpl.
  rewrite Hinvoke. simpl.
  rewrite first_pending_r.
  destruct (Promise.first _ _) as [t' [a|e]|] eqn:Hrace; simpl; [| |reflexivity];
    apply first_observed_ge in Hrace.
  - rewrite !Z.max_id, <- ?app_assoc. simpl.
    rewrite (Z.max_r t t') by lia. reflexivity.
  - unfold closeAndRethrow. rewrite ws_close_plain.
    destruct (isOpen t' (sockets w1 ws)); simpl;
      rewrite !Z.max_id, <- ?app_assoc; simpl;
      rewrite (Z.max_r t t') by lia; reflexivity.
Qed.

(** The link of a call that throws: the chain rejects with what was
    thrown, at once, and nothing else is done. *)
Lemma thenDo_threw `{Builtins} (c : call) (t : time) (ws : nat) (st : runtime)
    (e : Error) (w1 : world) :
  invoke c ws t (heap st) = (Err e, w1) ->
  thenDo c (Settled t (Ok ws), st)
  = (Settled t (Err e), mkRuntime w1 (journal st ++ [Invoked t c; Threw t c e])).
Proof.
  intros Hinvoke.
  unfold thenDo, Async.then_, Async.then2, lift, note, Promise.rejected. simpl.
  rewrite Hinvoke. simpl. rewrite Z.max_id, <- app_assoc. reflexivity.
Qed.

(** A chain that rejected, or that never settles, stays as it is: the
    callback of [thenDo] is not run. *)
Lemma thenDo_rejected `{Builtins} (c : call) (t : time) (e : Error) (st : runtime) :
  thenDo c (Settled t (Err e), st) = (Settled t (Err e), st).
Proof.
  unfold thenDo, Async.then_, Async.then2, Promise.rejected. simpl.
  rewrite Z.max_id. reflexivity.
Qed.

Lemma thenDo_pending `{Builtins} (c : call) (st : runtime) :
  thenDo c (Pending, st) = (Pending, st).
Proof. reflexivity. Qed.

Lemma pipeline_rejected `{Builtins} (cs : list call) (t : time) (e : Error) (st : runtime) :
  pipeline cs (Settled t (Err e), st) = (Settled t (Err e), st).
Proof.
  induction cs as [|c cs IH]; [reflexivity|].
  unfold pipeline in *. simpl. rewrite thenDo_rejected. exact IH.
Qed.

Lemma pipeline_pending `{Builtins} (cs : list call) (st : runtime) :
  pipeline cs (Pending, st) = (Pending, st).
Proof.
  induction cs as [|c cs IH]; [reflexivity|].
  unfold pipeline in *. simpl. exact IH.
Qed.

Lemma pipeline_cons `{Builtins} (c : call) (cs : list call) (chain : Chain) :
  pipeline (c :: cs) chain = pipeline cs (thenDo c chain).
Proof. reflexivity. Qed.

Lemma race_observed_ge {A} (t t' : time) (p q : promise A) (r : result A) :
  Promise.race [Promise.observe t p; Promise.observe t q] = Settled t' r -> t <= t'.
Proof.
  unfold Promise.race. cbn [foldr]. rewrite first_pending_r.
  apply first_observed_ge.
Qed.

(** The four ways in which a link can end. *)
Lemma thenDo_cases `{Builtins} (c : call) (t : time) (ws : nat) (st : runtime) :
  (exists t' w1,
      t <= t' /\
      thenDo c (Settled t (Ok ws), st)
      = (Settled t' (Ok ws), mkRuntime w1 (journal st ++ [Invoked t c; Passed t' c])))
  \/ (exists t' e w1,
      t <= t' /\
      thenDo c (Settled t (Ok ws), st)
      = (Settled t' (Err e), mkRuntime w1 (journal st ++ [Invoked t c; Failed t' c e])))
  \/ (exists w1,
      thenDo c (Settled t (Ok ws), st)
      = (Pending, mkRuntime w1 (journal st ++ [Invoked t c])))
  \/ (exists e w1,
      thenDo c (Settled t (Ok ws), st)
      = (Settled t (Err e), mkRuntime w1 (journal st ++ [Invoked t c; Threw t c e]))).
Proof.
  destruct (invoke c ws t (heap st)) as [[p|e] w1] eqn:Hinvoke.
  - rewrite (thenDo_returned _ _ _ _ _ _ Hinvoke).
    destruct (Promise.race _) as [t' [a|e]|] eqn:Hrace.
    + left. apply race_observed_ge in Hrace. eauto.
    + right. left. apply race_observed_ge in Hrace. eauto 6.
    + right. right. left. eauto.
  - rewrite (thenDo_threw _ _ _ _ _ _ Hinvoke). right. right. right. eauto.
Qed.

(** C2: the steps of a pipeline run one at a time, in the order of the
    calls.  The operation of each step is invoked on the connection [ws],
    at the instant at which the link before it fulfilled and in the state
    which that link left; none is invoked after a link that rejected or
    that never settles.  A link whose operation fulfils, with whatever
    value, fulfils with [ws] itself, and so does the chain left by links
    that all fulfilled. *)
Theorem pipeline_runs_in_call_order `{Builtins} (cs : list call) (t : time) (ws : nat)
    (st : runtime) :
  (exists j,
      journal (snd (pipeline cs (Settled t (Ok ws), st))) = journal st ++ j
      /\ runs t ws (heap st) cs j
           (fst (pipeline cs (Settled t (Ok ws), st)))
           (heap (snd (pipeline cs (Settled t (Ok ws), st)))))
  /\ (forall c p w1 t' v,
        invoke c ws t (heap st) = (Ok p, w1) ->
        Promise.race [Promise.observe t p;
                      Promise.observe t (firstErrorPromise (sockets w1 ws))]
        = Settled t' (Ok v) ->
        fst (thenDo c (Settled t (Ok ws), st)) = Settled t' (Ok ws)
        /\ heap (snd (thenDo c (Settled t (Ok ws), st))) = w1).
Proof.
  split.
  2: { intros c p w1 t' v Hinvoke Hrace.
       rewrite (thenDo_returned _ _ _ _ _ _ Hinvoke), Hrace. split; reflexivity. }
  revert t st. induction cs as [|c cs IH]; intros t st.
  - exists []. simpl. rewrite app_nil_r. split; [reflexivity | constructor].
  - rewrite pipeline_cons.
    destruct (invoke c ws t (heap st)) as [[p|e] w1] eqn:Hinvoke.
    + rewrite (thenDo_returned _ _ _ _ _ _ Hinvoke).
      destruct (Promise.race _) as [t' [v|e]|] eqn:Hrace.
      * pose proof (race_observed_ge _ _ _ _ _ Hrace) as Hle.
        destruct (IH t' (mkRuntime w1 (journal st ++ [Invoked t c; Passed t' c])))
          as (j & Hj & Hruns).
        exists (Invoked t c :: Passed t' c :: j). split.
        -- rewrite Hj. simpl. rewrite <- app_assoc. reflexivity.
        -- eapply runs_passed; eauto.
      * pose proof (race_observed_ge _ _ _ _ _ Hrace) as Hle.
        rewrite pipeline_rejected. simpl. eexists. split; [reflexivity|].
        eapply runs_failed; eauto.
      * rewrite pipeline_pending. simpl. eexists. split; [reflexivity|].
        eapply runs_stuck; eauto.
    + rewrite (thenDo_threw _ _ _ _ _ _ Hinvoke), pipeline_rejected. simpl.
      eexists. split; [reflexivity|]. apply runs_threw. exact Hinvoke.
Qed.

Lemma pipeline_runs_in_call_order_witness :
  let w := Scenario.allLike (Scenario.receiving [(4, PText "hello")]) in
  let answer := Exec (fun _ now w => (Promise.resolved (now + 2) (VNumber (Num 7)), w)) in
  let script := [ExpectText (ExpCheck (CheckValue (VString "hello"))) None; answer] in
  fst (@thenDo Scenario.builtins answer (Settled 4 (Ok 5%nat), Scenario.fresh w))
  = Settled 6 (Ok 5%nat)
  /\ exists j,
      runs (H := Scenario.builtins) 1 5 w script j (Settled 6 (Ok 5%nat))
        (heap (snd (@pipeline Scenario.builtins script
                      (Settled 1 (Ok 5%nat), Scenario.fresh w)))).
Proof.
  intros w answer script. split.
  - exact (proj1 (proj2 (@pipeline_runs_in_call_order Scenario.builtins [] 4 5%nat
                           (Scenario.fresh w))
                    answer _ _ 6 (VNumber (Num 7)) eq_refl eq_refl)).
  - destruct (proj1 (@pipeline_runs_in_call_order Scenario.builtins script 1 5%nat
                       (Scenario.fresh w))) as (j & _ & Hruns).
    exists j. exact Hruns.
Defined.

Lemma firstErrorPromise_some {A} (s : WebSocket) (te : time) (e : Error) :
  firstError s = Some (te, e) -> @firstErrorPromise A s = Settled te (Err e).
Proof.
  intros He. unfold firstErrorPromise. rewrite He. simpl. rewrite Z.max_id. reflexivity.
Qed.

Lemma firstErrorPromise_after {A} (s : WebSocket) (t : time) :
  happensAfter t (firstError s) = true -> settlesAfter t (@firstErrorPromise A s) = true.
Proof.
  intros Hafter. unfold firstErrorPromise. apply settlesAfter_then.
  rewrite settlesAfter_of_event. exact Hafter.
Qed.

(** After [ws.close(...)], accepted or not, the socket is not open;
    [closeAndRethrow] leaves a socket that is not open as it is. *)
Lemma isOpen_ws_close (ws : nat) (now t : time) (code message : value) (w : world) :
  isOpen now (sockets (snd (ws_close ws t code message w)) ws) = false.
Proof.
  unfold isOpen, readyState, ws_close.
  destruct (closeRefusal ws t code message w); simpl; rewrite fn_lookup_alter; simpl;
    destruct (closeCalls (sockets w ws)); simpl;
    destruct (lineState (sockets w ws) now); reflexivity.
Qed.

Lemma isOpen_after_cleanup (ws : nat) (now : time) (w : world) :
  isOpen now (sockets (if isOpen now (sockets w ws)
                       then snd (ws_close ws now VUndefined VUndefined w) else w) ws)
  = false.
Proof.
  destruct (isOpen now (sockets w ws)) eqn:Hopen;
    [apply isOpen_ws_close | exact Hopen].
Qed.

(** C3: every step races its operation against [ws.firstError].  When the
    first error after the handshake comes at [te] while the operation of a
    step started at [t] has not settled (it settles later, or never), the
    link fails at that instant with that error, whatever the operation. *)
Theorem step_fails_with_first_error `{Builtins} (c : call) (t te : time) (ws : nat)
    (st : runtime) (p : promise value) (w1 : world) (e : Error) :
  invoke c ws t (heap st) = (Ok p, w1) ->
  firstError (sockets w1 ws) = Some (te, e) ->
  settlesAfter (Z.max t te) p = true ->
  fst (thenDo c (Settled t (Ok ws), st)) = Settled (Z.max t te) (Err e)
  /\ journal (snd (thenDo c (Settled t (Ok ws), st)))
     = journal st ++ [Invoked t c; Failed (Z.max t te) c e].
Proof.
  intros Hinvoke Herror Hlater.
  rewrite (thenDo_returned _ _ _ _ _ _ Hinvoke).
  rewrite (firstErrorPromise_some _ _ _ Herror).
  unfold Promise.race. cbn [foldr Promise.observe].
  rewrite first_pending_r, first_loses by (apply settlesAfter_observe; exact Hlater).
  split; reflexivity.
Qed.

Lemma step_fails_with_first_error_witness :
  let s := mkWebSocket (fun _ => OPEN) (fun now _ _ => Settled now (Ok tt))
             (Settled 0 (Ok tt)) [] None (Some (30, mkError "socket hang up"))
             None [] [] in
  fst (@thenDo Scenario.builtins (Wait 500)
         (Settled 10 (Ok 0%nat), Scenario.fresh (Scenario.allLike s)))
  = Settled 30 (Err (mkError "socket hang up")).
Proof.
  intros s.
  refine (proj1 (@step_fails_with_first_error Scenario.builtins (Wait 500) 10 30 0%nat
                   (Scenario.fresh (Scenario.allLike s)) _ _
                   (mkError "socket hang up") eq_refl _ _)); reflexivity.
Defined.

(** When the race of a link rejects, the connection is closed if, and
    only if, it is still connecting or open at that instant (in either
    case it is not open afterwards); the chain rejects with the same
    error, and the steps queued behind it are never invoked: the chain and
    the state stay as the failed link left them. *)
Lemma rejected_race_closes_and_stops `{Builtins} (c : call) (t t' : time) (ws : nat)
    (st : runtime) (p : promise value) (w1 : world) (e : Error) :
  invoke c ws t (heap st) = (Ok p, w1) ->
  fst (thenDo c (Settled t (Ok ws), st)) = Settled t' (Err e) ->
  heap (snd (thenDo c (Settled t (Ok ws), st)))
  = (if isOpen t' (sockets w1 ws)
     then snd (ws_close ws t' VUndefined VUndefined w1) else w1)
  /\ isOpen t' (sockets (heap (snd (thenDo c (Settled t (Ok ws), st)))) ws) = false
  /\ (forall cs,
        pipeline cs (thenDo c (Settled t (Ok ws), st))
        = (Settled t' (Err e), snd (thenDo c (Settled t (Ok ws), st)))).
Proof.
  intros Hinvoke. rewrite (thenDo_returned _ _ _ _ _ _ Hinvoke).
  destruct (Promise.race _) as [t0 [a|e0]|]; simpl; try discriminate.
  intros [= -> ->]. split; [reflexivity|]. split.
  - apply isOpen_after_cleanup.
  - intros cs. apply pipeline_rejected.
Qed.

Example failed_expectation_closes_and_stops :
  let w := Scenario.allLike (Scenario.receiving [(4, PText "hello")]) in
  let c := ExpectText (ExpCheck (CheckValue (VString "bye"))) None in
  let failed := @thenDo Scenario.builtins c (Settled 1 (Ok 0%nat), Scenario.fresh w) in
  closeCalls (sockets (heap (snd failed)) 0%nat) = [(VUndefined, VUndefined)]
  /\ fst (@pipeline Scenario.builtins [SendText (VString "late")] failed)
     = Settled 4 (Err (mkError "Expected message bye, got hello")).
Proof. split; reflexivity. Qed.

(** C4 fails on a step whose call throws before it returns a promise:
    [fn(ws, ...args)] is evaluated inside the callback of [chain.then],
    ahead of [Promise.race] and of [.catch(closeAndRethrow(ws))], so what
    it throws rejects the chain without going through [closeAndRethrow].
    [sendText({ toString: null })] fails in [String(msg)]: the chain
    rejects, the steps behind it do not run, and the connection, still
    open, is neither closed nor taken out of the registry.
    [close(5000)] fails in the transport, which refuses the code: the
    chain rejects, and the connection stays in the registry, out of the
    reach of [closeAll], which passes over a connection that is no longer
    open. *)
Theorem thrown_step_leaves_connection (later : time) :
  let w := Scenario.allLike Scenario.idle in
  let start := wsRequest 0 w in
  let unprintable := SendText (VObject [("toString"%string, VNull)]) in
  let failed := @pipeline Scenario.builtins [unprintable; Close VUndefined VUndefined] start in
  let refused :=
    @pipeline Scenario.builtins [Close (VNumber (Num 5000)) VUndefined] start in
  fst start = Settled 0 (Ok 0%nat)
  /\ fst failed = Settled 0 (Err (mkError "Cannot convert object to primitive value"))
  /\ journal (snd failed)
     = [Invoked 0 unprintable;
        Threw 0 unprintable (mkError "Cannot convert object to primitive value")]
  /\ closeCalls (sockets (heap (snd failed)) 0%nat) = []
  /\ isOpen later (sockets (heap (snd failed)) 0%nat) = true
  /\ clientSockets (heap (snd failed)) = {[0%nat]}
  /\ fst refused
     = Settled 0 (Err (mkError "First argument must be a valid error code number"))
  /\ closeCalls (sockets (heap (snd refused)) 0%nat)
     = [(VNumber (Num 5000), VUndefined)]
  /\ clientSockets (heap (snd refused)) = {[0%nat]}
  /\ closeAll later (heap (snd refused))
     = (0%nat, {| sockets := sockets (heap (snd refused)); clientSockets := ∅;
                  closeRefuses := closeRefuses (heap (snd refused)) |}).
Proof.
  intros w start unprintable failed refused.
  assert (Hreg : clientSockets (heap (snd start)) = {[0%nat]}).
  { simpl. apply leibniz_equiv. set_solver. }
  split; [reflexivity|]. split; [reflexivity|]. split; [reflexivity|].
  split; [reflexivity|]. split; [reflexivity|]. split; [exact Hreg|].
  split; [reflexivity|]. split; [reflexivity|]. split; [exact Hreg|].
  unfold closeAll.
  replace (registered later (heap (snd refused))) with [0%nat].
  - reflexivity.
  - unfold registered. change (clientSockets (heap (snd refused)))
      with (clientSockets (heap (snd start))). rewrite Hreg, elements_singleton.
    reflexivity.
Qed.

(** ** Timeouts *)

Lemma pop_after {A} (now deadline : time) (q : list (time * A)) :
  happensAfter deadline (head q) = true ->
  settlesAfter deadline (fst (BlockingQueue.pop now q)) = true.
Proof.
  destruct q as [|[ta a] q]; simpl; [reflexivity|].
  rewrite !Z.ltb_lt. lia.
Qed.

Lemma delay_positive (ms : Z) : 0 < Promise.delay ms.
Proof.
  unfold Promise.delay. destruct (Z.leb_spec 1 ms); simpl; [|lia].
  destruct (_ <=? _); lia.
Qed.

Lemma delay_in_range (ms : Z) :
  0 < ms -> ms <= Promise.TIMEOUT_MAX -> Promise.delay ms = ms.
Proof.
  intros Hpos Hmax. unfold Promise.delay.
  destruct (Z.leb_spec 1 ms); [|lia]. destruct (Z.leb_spec ms Promise.TIMEOUT_MAX); [|lia].
  reflexivity.
Qed.

(** With a timer armed for [ms] milliseconds and neither a message nor
    the 'close' event by the time it fires, [expectMessage] rejects when
    the timer fires. *)
Lemma expectMessage_timeout `{Builtins} (ws : nat) (now : time) (ms : Z)
    (conversion : payload -> result value) (check : Check_) (w : world) :
  0 < ms ->
  silentUntil (now + Promise.delay ms) (sockets w ws) = true ->
  fst (wsMethods.expectMessage ws now conversion check (Some ms) w)
  = Settled (now + Promise.delay ms)
      (Err (mkError ("Excepted message within " +:+ number_to_string (Num ms)
                     +:+ "ms, but nothing arrived"))).
Proof.
  intros Hms Hsilent. apply andb_true_iff in Hsilent as [Hmsg Hclose].
  unfold wsMethods.expectMessage.
  pose proof (pop_after now _ _ Hmsg) as Hpop.
  destruct (BlockingQueue.pop now (messages (sockets w ws))) as [popped q].
  simpl in Hpop. cbv iota beta. unfold timeoutTimer, Promise.timer.
  destruct (Z.ltb_spec 0 ms); [|lia].
  unfold Promise.race, Promise.then_ at 2. cbn [foldr Promise.observe Promise.rejected].
  rewrite Z.max_id, first_pending_r.
  rewrite first_loses.
  2: { apply settlesAfter_then, settlesAfter_observe.
       rewrite settlesAfter_of_event. exact Hclose. }
  rewrite first_loses by exact Hpop.
  reflexivity.
Qed.

(** With nothing ever happening on the socket and no timer armed,
    [expectMessage] never settles. *)
Lemma expectMessage_waits `{Builtins} (ws : nat) (now : time)
    (conversion : payload -> result value) (check : Check_) (timeout : option Z)
    (w : world) :
  timeoutTimer now timeout = Pending ->
  silentForever (sockets w ws) = true ->
  fst (wsMethods.expectMessage ws now conversion check timeout w) = Pending.
Proof.
  intros Htimer Hsilent. unfold wsMethods.expectMessage, silentForever in *.
  destruct (messages (sockets w ws)); [|discriminate].
  destruct (closed (sockets w ws)); [discriminate|].
  simpl. rewrite Htimer. reflexivity.
Qed.

Lemma expectMessage_keeps_firstError `{Builtins} (ws : nat) (now : time)
    (conversion : payload -> result value) (check : Check_) (timeout : option Z)
    (w : world) :
  firstError (sockets (snd (wsMethods.expectMessage ws now conversion check timeout w)) ws)
  = firstError (sockets w ws).
Proof.
  unfold wsMethods.expectMessage.
  destruct (BlockingQueue.pop now (messages (sockets w ws))) as [popped q].
  simpl. rewrite fn_lookup_insert. reflexivity.
Qed.

(** C8: a message expectation with a timeout of [ms > 0] milliseconds, on
    a connection where neither a message nor the 'close' event comes
    before the timer fires, fails at that instant with "Excepted message
    within [ms]ms, but nothing arrived"; unless an error of the connection
    fails the step earlier, that is the failure of the link, which leaves
    the connection not open.  The timer fires after [ms] milliseconds, for
    every [ms] that a timer takes (up to [TIMEOUT_MAX]; above, it fires
    after one millisecond).  With a timeout that is absent or not greater
    than zero no timer is armed, and the step never settles on a
    connection where nothing happens. *)
Theorem expectation_timeout `{Builtins} (c : call) (conversion : payload -> result value)
    (check : Check_) (timeout : option Z) (ws : nat) (now : time) (st : runtime) :
  expectation c conversion check timeout ->
  (forall ms,
      timeout = Some ms -> 0 < ms ->
      let fires := now + Promise.delay ms in
      silentUntil fires (sockets (heap st) ws) = true ->
      let nothing :=
        mkError ("Excepted message within " +:+ number_to_string (Num ms)
                 +:+ "ms, but nothing arrived") in
      fst (invoke c ws now (heap st)) = Ok (Settled fires (Err nothing))
      /\ (happensAfter fires (firstError (sockets (heap st) ws)) = true ->
          fst (thenDo c (Settled now (Ok ws), st)) = Settled fires (Err nothing)
          /\ isOpen fires
               (sockets (heap (snd (thenDo c (Settled now (Ok ws), st)))) ws) = false)
      /\ (ms <= Promise.TIMEOUT_MAX ->
          fires = now + ms /\ number_to_string (Num ms) = pretty ms))
  /\ ((forall ms, timeout = Some ms -> ms <= 0) ->
      timeoutTimer now timeout = Pending
      /\ (silentForever (sockets (heap st) ws) = true ->
          fst (thenDo c (Settled now (Ok ws), st)) = Pending)).
Proof.
  intros Hc. pose proof (invoke_expectation _ _ _ _ ws now Hc) as Hinvoke.
  split.
  - intros ms -> Hms fires Hsilent nothing.
    pose proof (expectMessage_timeout ws now ms conversion check (heap st) Hms Hsilent)
      as Hop.
    pose proof (delay_positive ms) as Hdelay.
    rewrite Hinvoke, fst_returns. split; [rewrite Hop; reflexivity|]. split.
    + intros Herror.
      erewrite thenDo_returned by (rewrite Hinvoke; apply returns_eq).
      pose proof (expectMessage_keeps_firstError ws now conversion check (Some ms) (heap st))
        as Hkeep.
      revert Hop Hkeep.
      destruct (wsMethods.expectMessage ws now conversion check (Some ms) (heap st))
        as [p w1].
      cbn [fst snd]. intros -> Hkeep.
      unfold Promise.race. cbn [foldr Promise.observe].
      fold fires.
      rewrite first_pending_r, (Z.max_r now fires) by (unfold fires; lia).
      rewrite first_wins.
      * simpl. split; [reflexivity | apply isOpen_after_cleanup].
      * apply settlesAfter_observe, firstErrorPromise_after.
        rewrite Hkeep. exact Herror.
    + intros Hmax. split.
      * unfold fires. rewrite delay_in_range by assumption. reflexivity.
      * apply number_to_string_safe. unfold Promise.TIMEOUT_MAX, MAX_SAFE_INTEGER in *. lia.
  - intros Hoff.
    assert (Htimer : timeoutTimer now timeout = Pending).
    { unfold timeoutTimer. destruct timeout as [ms|]; [|reflexivity].
      specialize (Hoff ms eq_refl). destruct (Z.ltb_spec 0 ms); [lia | reflexivity]. }
    split; [exact Htimer|].
    intros Hsilent.
    erewrite thenDo_returned by (rewrite Hinvoke; apply returns_eq).
    pose proof (expectMessage_waits ws now conversion check timeout (heap st)
                  Htimer Hsilent) as Hop.
    pose proof (expectMessage_keeps_firstError ws now conversion check timeout (heap st))
      as Hkeep.
    revert Hop Hkeep.
    destruct (wsMethods.expectMessage ws now conversion check timeout (heap st))
      as [p w1].
    cbn [fst snd]. intros -> Hkeep.
    unfold firstErrorPromise. rewrite Hkeep.
    unfold silentForever in Hsilent.
    destruct (messages (sockets (heap st) ws)); [|discriminate].
    destruct (closed (sockets (heap st) ws)); [discriminate|].
    destruct (firstError (sockets (heap st) ws)); [discriminate|].
    reflexivity.
Qed.

Lemma expectation_timeout_witness :
  let st := Scenario.fresh (Scenario.allLike Scenario.idle) in
  let expect (timeout : option Z) :=
    ExpectText (ExpCheck (CheckValue (VString "x"))) timeout in
  (fst (@thenDo Scenario.builtins (expect (Some 50)) (Settled 100 (Ok 0%nat), st))
   = Settled 150 (Err (mkError "Excepted message within 50ms, but nothing arrived"))
   /\ isOpen 150
        (sockets (heap (snd (@thenDo Scenario.builtins (expect (Some 50))
                               (Settled 100 (Ok 0%nat), st)))) 0%nat) = false)
  /\ fst (@thenDo Scenario.builtins (expect None) (Settled 100 (Ok 0%nat), st)) = Pending.
Proof.
  intros st expect. split.
  - destruct (@expectation_timeout Scenario.builtins (expect (Some 50)) msgText
                (CheckValue (VString "x")) (Some 50) 0%nat 100 st
                (@expectation_text Scenario.builtins _ _)) as [Harmed _].
    assert (H50 : 0 < 50) by lia.
    destruct (Harmed 50 eq_refl H50 eq_refl) as (_ & Hlink & _).
    exact (Hlink eq_refl).
  - destruct (@expectation_timeout Scenario.builtins (expect None) msgText
                (CheckValue (VString "x")) None 0%nat 100 st
                (@expectation_text Scenario.builtins _ _)) as [_ Hoff].
    assert (Hnone : forall ms : Z, @None Z = Some ms -> ms <= 0) by (intros ms [=]).
    destruct (Hoff Hnone) as [_ Hwaits].
    exact (Hwaits eq_refl).
Defined.

(** ** Closing what is left *)

Lemma closeAll_fold_sockets (now : time) (l : list nat) (w : world) (ws : nat) :
  NoDup l ->
  sockets (foldl (fun w' i => snd (ws_close i now VUndefined VUndefined w')) w l) ws
  = if bool_decide (ws ∈ l)
    then originalClose VUndefined VUndefined (sockets w ws)
    else sockets w ws.
Proof.
  revert w. induction l as [|a l IH]; intros w Hnodup; [reflexivity|].
  apply NoDup_cons in Hnodup as [Hnotin Hnodup]. cbn [foldl].
  rewrite IH by assumption.
  destruct (decide (ws = a)) as [->|Hne].
  - rewrite (bool_decide_eq_false_2 _ Hnotin).
    rewrite bool_decide_eq_true_2 by constructor.
    simpl. apply fn_lookup_alter.
  - assert (Hsame : sockets (snd (ws_close a now VUndefined VUndefined w)) ws
                    = sockets w ws).
    { simpl. apply fn_lookup_alter_ne. congruence. }
    rewrite Hsame.
    destruct (decide (ws ∈ l)) as [Hin|Hout].
    + rewrite !bool_decide_eq_true_2; [reflexivity | by constructor | assumption].
    + rewrite !bool_decide_eq_false_2; [reflexivity | | assumption].
      intros Hin. apply elem_of_cons in Hin as [?|?]; contradiction.
Qed.

Lemma closeAll_fold_registry (now : time) (l : list nat) (w : world) :
  clientSockets w = ∅ ->
  clientSockets (foldl (fun w' i => snd (ws_close i now VUndefined VUndefined w')) w l)
  = ∅.
Proof.
  revert w. induction l as [|a l IH]; intros w Hempty; [exact Hempty|].
  simpl. apply IH. simpl. rewrite Hempty.
  apply subseteq_empty_difference_L, empty_subseteq.
Qed.

(** C9: [closeAll] calls [close] on exactly the registered sockets that
    are connecting or open, once each, and on no other socket; it empties
    the registry and returns how many sockets it closed.  None of those is
    open afterwards, and a second call, at any later time and with no new
    connection, returns 0. *)
Theorem closeAll_closes_the_open_ones (now : time) (w : world) :
  exists remaining : list nat,
    NoDup remaining
    /\ (forall ws, ws ∈ remaining <->
                   ws ∈ clientSockets w
                   /\ closeFired now (sockets w ws) = false
                   /\ isOpen now (sockets w ws) = true)
    /\ fst (closeAll now w) = length remaining
    /\ clientSockets (snd (closeAll now w)) = ∅
    /\ (forall ws,
          sockets (snd (closeAll now w)) ws
          = if bool_decide (ws ∈ remaining)
            then originalClose VUndefined VUndefined (sockets w ws)
            else sockets w ws)
    /\ (forall ws, ws ∈ remaining ->
                   isOpen now (sockets (snd (closeAll now w)) ws) = false)
    /\ (forall later, fst (closeAll later (snd (closeAll now w))) = 0%nat).
Proof.
  set (remaining := List.filter (fun ws => isOpen now (sockets w ws)) (registered now w)).
  assert (Hnodup : NoDup remaining).
  { apply NoDup_ListNoDup. unfold remaining, registered.
    do 2 apply List.NoDup_filter. apply NoDup_ListNoDup, NoDup_elements. }
  assert (Hsockets : forall ws,
             sockets (snd (closeAll now w)) ws
             = if bool_decide (ws ∈ remaining)
               then originalClose VUndefined VUndefined (sockets w ws)
               else sockets w ws).
  { intros ws. unfold closeAll. cbn [snd]. fold remaining.
    rewrite closeAll_fold_sockets by exact Hnodup. reflexivity. }
  assert (Hregistry : clientSockets (snd (closeAll now w)) = ∅).
  { unfold closeAll. cbn [snd]. apply closeAll_fold_registry. reflexivity. }
  assert (Hmember : forall ws, ws ∈ remaining <->
                                ws ∈ clientSockets w
                                /\ closeFired now (sockets w ws) = false
                                /\ isOpen now (sockets w ws) = true).
  { intros ws. unfold remaining, registered.
    rewrite list_elem_of_In, !filter_In, <- list_elem_of_In, elem_of_elements.
    rewrite negb_true_iff. tauto. }
  exists remaining.
  split; [exact Hnodup|]. split; [exact Hmember|]. split; [reflexivity|].
  split; [exact Hregistry|]. split; [exact Hsockets|]. split.
  - intros ws Hin. rewrite Hsockets, bool_decide_eq_true_2 by exact Hin.
    unfold isOpen, readyState, originalClose. simpl.
    destruct (closeCalls (sockets w ws)); simpl;
      destruct (lineState (sockets w ws) now); reflexivity.
  - intros later. revert Hregistry. generalize (snd (closeAll now w)) as w'.
    intros w' Hempty. unfold closeAll, registered. rewrite Hempty, elements_empty.
    reflexivity.
Qed.

(** ** The scenarios of the documentation, run on the model *)

(** String forms that [sendText] puts on the wire, and an argument that
    has none. *)
Example String_forms :
  map String_ [VNumber (Num 42); VNumber (Num (-7)); VNumber NaN; VNull; VUndefined;
               VBool true; VString "yo"; VObject [("foo"%string, VString "bar")];
               VArray [VNumber (Num 1); VNull; VString "a"];
               VNumber (Num (2 ^ 60)); VNumber (Num (10 ^ 21));
               VNumber (Num (- 2 ^ 70)); VNumber (Num (2 ^ 1024));
               VObject [("toString"%string, VNull)]]
  = [Ok "42"; Ok "-7"; Ok "NaN"; Ok "null"; Ok "undefined"; Ok "true"; Ok "yo";
     Ok "[object Object]"; Ok "1,,a";
     Ok "1152921504606847000"; Ok "1e+21";
     Ok "-1.1805916207174113e+21"; Ok "Infinity";
     Err (mkError "Cannot convert object to primitive value")]%string.
Proof. vm_compute. reflexivity. Qed.

(** [stringifyBinary] as used in the messages of [expectBinary]. *)
Example stringifyBinary_form :
  stringifyBinary [x0a; x14; xff] = "[0a 14 ff]"%string.
Proof. reflexivity. Qed.

(** Three connections opened, none closed: [closeAll] returns 3, and 0
    when called again. *)
Example closeAll_three_then_none :
  let w := snd (wsRequest 2 (heap (snd (wsRequest 1 (heap (snd (wsRequest 0
             (Scenario.allLike Scenario.idle)))))))) in
  fst (closeAll 20 (heap w)) = 3%nat
  /\ fst (closeAll 21 (snd (closeAll 20 (heap w)))) = 0%nat.
Proof. vm_compute. auto. Qed.

(** The server greets with "hello" and echoes "foo"; the script
    [.expectText('hello').sendText('foo').expectText('echo foo').close()
    .expectClosed()] runs to the end. *)
Example greeting_and_echo :
  let s := mkWebSocket (fun _ => OPEN) (fun now _ _ => Settled now (Ok tt))
             (Settled 2 (Ok tt)) [(3, PText "hello"); (8, PText "echo foo")]
             (Some (12, mkCloseEvent 1005 EmptyString)) None None [] [] in
  let script := [ExpectText (ExpCheck (CheckValue (VString "hello"))) None;
                 SendText (VString "foo");
                 ExpectText (ExpCheck (CheckValue (VString "echo foo"))) None;
                 Close VUndefined VUndefined;
                 ExpectClosed VUndefined VUndefined] in
  let done := @pipeline Scenario.builtins script (wsRequest 0 (Scenario.allLike s)) in
  fst done = Settled 12 (Ok 0%nat)
  /\ sent (sockets (heap (snd done)) 0%nat) = [(VString "foo", VUndefined)]
  /\ closeCalls (sockets (heap (snd done)) 0%nat) = [(VUndefined, VUndefined)]
  /\ length (journal (snd done)) = 10%nat.
Proof. vm_compute. auto. Qed.

(** [.close(5000).sendText('after')]: the transport refuses the code, the
    chain rejects with its error, the text is not sent and the socket is
    still registered. *)
Example refused_close_stops_the_script :
  let start := wsRequest 0 (Scenario.allLike Scenario.idle) in
  let script := [Close (VNumber (Num 5000)) VUndefined; SendText (VString "after")] in
  let refused := @pipeline Scenario.builtins script start in
  fst refused
  = Settled 0 (Err (mkError "First argument must be a valid error code number"))
  /\ sent (sockets (heap (snd refused)) 0%nat) = []
  /\ elements (clientSockets (heap (snd refused))) = [0%nat].
Proof. vm_compute. auto. Qed.

(** [expectConnectionError(404)] on a handshake rejected with another
    status fails. *)
Example expectConnectionError_other_status :
  fst (expectConnectionError (VNumber (Num 404))
         (Settled 7 (Err (mkError "Unexpected server response: 500")),
          Scenario.fresh (Scenario.allLike Scenario.idle)))
  = Settled 7 (Err (mkError ("Expected connection failure with message "
                             +:+ dquote +:+ "Unexpected server response: 404" +:+ dquote
                             +:+ ", got " +:+ dquote
                             +:+ "Unexpected server response: 500" +:+ dquote))).
Proof. reflexivity. Qed.

(** * Further properties of the code *)

(** ** The address of the socket *)

Lemma substring_whole (s : string) : String.substring 0 (String.length s) s = s.
Proof. induction s as [|c s IH]; simpl; [reflexivity | rewrite IH; reflexivity]. Qed.

Lemma replace_http_prefixed (rest : string) :
  replace_http ("http" +:+ rest) = "ws" +:+ rest.
Proof.
  unfold replace_http.
  assert (Hprefix : String.prefix "http" ("http" +:+ rest) = true).
  { simpl. destruct rest; reflexivity. }
  rewrite Hprefix. f_equal. simpl. rewrite Nat.sub_0_r. apply substring_whole.
Qed.

(** X1: [getServerWsPath] turns the scheme [http] into [ws] and keeps
    everything behind it, so that [https] becomes [wss]; an address that
    does not start with [http] is handed back unchanged.  For a server
    object the address is supertest's, and a server that is not listening
    makes it throw "Server was closed". *)
Theorem getServerWsPath_scheme (b : backstage) (path : string) :
  (forall rest, getServerWsPath b (ServerUrl ("http" +:+ rest)) path
                = Ok ("ws" +:+ rest +:+ path))
  /\ (forall url, String.prefix "http" (url +:+ path) = false ->
                  getServerWsPath b (ServerUrl url) path = Ok (url +:+ path))
  /\ (forall srv, listening (servers b srv) = false ->
                  getServerWsPath b (ServerHandle srv) path
                  = Err (mkError "Server was closed"))
  /\ (forall srv rest, listening (servers b srv) = true ->
                       serverAddress (servers b srv) path = "http" +:+ rest ->
                       getServerWsPath b (ServerHandle srv) path = Ok ("ws" +:+ rest)).
Proof.
  repeat split.
  - intros rest. unfold getServerWsPath.
    change (("http" +:+ rest) +:+ path) with ("http" +:+ (rest +:+ path)).
    rewrite replace_http_prefixed. reflexivity.
  - intros url Hother. unfold getServerWsPath, replace_http. rewrite Hother. reflexivity.
  - intros srv Hclosed. unfold getServerWsPath. rewrite Hclosed. reflexivity.
  - intros srv rest Hopen Haddress. unfold getServerWsPath.
    rewrite Hopen, Haddress, replace_http_prefixed. reflexivity.
Qed.

Lemma getServerWsPath_scheme_witness :
  let s := mkHttpServer true (fun path => "http://127.0.0.1:8080" +:+ path) [] [] 0 in
  let b := mkBackstage (fun _ => s) ∅ in
  getServerWsPath b (ServerUrl "https://example.com") "/path/ws"
  = Ok "wss://example.com/path/ws"%string
  /\ getServerWsPath b (ServerUrl "ws://example.com") "/path/ws"
     = Ok "ws://example.com/path/ws"%string
  /\ getServerWsPath b (ServerHandle 0) "/path/ws"
     = Ok "ws://127.0.0.1:8080/path/ws"%string.
Proof.
  intros s b.
  destruct (getServerWsPath_scheme b "/path/ws") as (Hhttp & Hother & _ & Hhandle).
  split; [|split].
  - exact (Hhttp "s://example.com"%string).
  - exact (Hother "ws://example.com"%string eq_refl).
  - exact (Hhandle 0%nat "://127.0.0.1:8080/path/ws"%string eq_refl eq_refl).
Defined.

(** ** Sending on a connection that is not open *)

(** X2: when the transport's callback reports that the socket is not
    open, [sendWithError] waits for the 'close' event and rejects with
    "Cannot send message; connection closed with CODE "MESSAGE"", no
    earlier than the callback and the event; if the 'close' event never
    fires, the promise never settles. *)
Theorem sendWithError_reports_close (ws : nat) (now tc : time) (msg options : value)
    (w : world) (err : Error) :
  transportSend (sockets w ws) now msg options = Settled tc (Err err) ->
  includes "WebSocket is not open" (message err) = true ->
  fst (sendWithError ws now msg options w)
  = match closed (sockets w ws) with
    | Some (tclose, ev) =>
        Settled (Z.max (Z.max now tc) tclose)
          (Err (mkError ("Cannot send message; connection closed with "
                         +:+ pretty (code ev) +:+ " "
                         +:+ dquote +:+ closeMessage ev +:+ dquote)))
    | None => Pending
    end.
Proof.
  intros Hsend Hnot. unfold sendWithError, ws_send. simpl.
  rewrite Hsend. simpl. rewrite Hnot.
  assert (Hne : negb (String.eqb (message err) EmptyString) = true).
  { destruct (message err); [discriminate Hnot | reflexivity]. }
  rewrite Hne. simpl. rewrite fn_lookup_insert. simpl.
  destruct (closed (sockets w ws)) as [[tclose ev]|]; simpl; [|reflexivity].
  f_equal. lia.
Qed.

Lemma sendWithError_reports_close_witness :
  let notOpen := mkError "WebSocket is not open: readyState 3 (CLOSED)" in
  let s := mkWebSocket (fun _ => CLOSED) (fun now _ _ => Settled now (Err notOpen))
             (Settled 0 (Ok tt)) [] (Some (6, mkCloseEvent 4321 "Oops")) None None
             [] [] in
  fst (sendWithError 0 9 (VString "late") VUndefined (Scenario.allLike s))
  = Settled 9 (Err (mkError ("Cannot send message; connection closed with 4321 "
                             +:+ dquote +:+ "Oops" +:+ dquote))).
Proof.
  intros notOpen s.
  exact (sendWithError_reports_close 0 9 9 (VString "late") VUndefined
           (Scenario.allLike s) notOpen eq_refl eq_refl).
Defined.

(** ** More on expecting a message *)

(** X3: when the 'close' event comes before any message and before the
    timer, [expectMessage] rejects at that instant with "Expected message
    ..., but connection closed: CODE "MESSAGE"". *)
Theorem expectMessage_connection_closed `{Builtins} (ws : nat) (now tc : time)
    (conversion : payload -> result value) (check : Check_) (timeout : option Z)
    (w : world) (ev : CloseEvent) :
  closed (sockets w ws) = Some (tc, ev) ->
  happensAfter (Z.max now tc) (head (messages (sockets w ws))) = true ->
  settlesAfter (Z.max now tc) (timeoutTimer now timeout) = true ->
  fst (wsMethods.expectMessage ws now conversion check timeout w)
  = Settled (Z.max now tc)
      (Err (mkError ("Expected message " +:+ stringify_check check
                     +:+ ", but connection closed: " +:+ pretty (code ev)
                     +:+ " " +:+ dquote +:+ closeMessage ev +:+ dquote))).
Proof.
  intros Hclosed Hmsg Htimer. unfold wsMethods.expectMessage.
  pose proof (pop_after now _ _ Hmsg) as Hpop.
  destruct (BlockingQueue.pop now (messages (sockets w ws))) as [popped q].
  simpl in Hpop. cbv iota beta. rewrite Hclosed.
  unfold Promise.race, Promise.then_ at 1.
  cbn [foldr Promise.of_event Promise.observe Promise.rejected].
  rewrite Z.max_id, first_pending_r.
  rewrite first_wins by (apply settlesAfter_then; exact Htimer).
  rewrite first_loses by exact Hpop.
  reflexivity.
Qed.

Lemma expectMessage_connection_closed_witness :
  let s := mkWebSocket (fun _ => OPEN) (fun now _ _ => Settled now (Ok tt))
             (Settled 0 (Ok tt)) [] (Some (6, mkCloseEvent 4321 "Oops")) None None
             [] [] in
  fst (@wsMethods.expectMessage Scenario.builtins 0 2 msgText
         (CheckValue (VString "hi")) (Some 500) (Scenario.allLike s))
  = Settled 6 (Err (mkError ("Expected message hi, but connection closed: 4321 "
                             +:+ dquote +:+ "Oops" +:+ dquote))).
Proof.
  intros s.
  exact (@expectMessage_connection_closed Scenario.builtins 0 2 6 msgText
           (CheckValue (VString "hi")) (Some 500) (Scenario.allLike s)
           (mkCloseEvent 4321 "Oops") eq_refl eq_refl eq_refl).
Defined.

(** X4: a message expectation with a literal expected value: the message
    received is converted first, and a failing conversion (a binary
    message for text or JSON, text that [JSON.parse] refuses) is the
    step's failure whatever the expected value; a converted message
    passes exactly when [fast-deep-equal] says that it equals the expected
    value. *)
Theorem literal_check_compares_converted `{Builtins} (c : call)
    (conversion : payload -> result value) (v : value) (timeout : option Z)
    (ws : nat) (now t : time) (w : world) (m : payload) :
  expectation c conversion (CheckValue v) timeout ->
  v <> VUndefined ->
  nextMessage now (sockets w ws) timeout = Some (t, m) ->
  fst (invoke c ws now w)
  = Ok (Settled t
          match conversion m with
          | Err e => Err e
          | Ok received =>
              if equal received v then Ok VUndefined
              else Err (mkError ("Expected message " +:+ stringify v
                                 +:+ ", got " +:+ stringify received))
          end).
Proof.
  intros Hc Hv Hnext.
  rewrite (invoke_expectation _ _ _ _ ws now Hc), fst_returns.
  rewrite (expectMessage_received _ _ _ _ _ _ _ _ Hnext).
  destruct (conversion m) as [received|e]; [|reflexivity].
  unfold checkReceived.
  destruct v; try contradiction; simpl; destruct (equal received _); reflexivity.
Qed.

Lemma literal_check_compares_converted_witness :
  let w := Scenario.allLike (Scenario.receiving [(4, PBinary [x01])]) in
  fst (@invoke Scenario.builtins (ExpectJson (CheckValue (VString "x")) None) 0%nat 1 w)
  = Ok (Settled 4 (Err (mkError "Expected text message, got object"))).
Proof.
  intros w.
  assert (Hv : VString "x" <> VUndefined) by discriminate.
  exact (@literal_check_compares_converted Scenario.builtins
           (ExpectJson (CheckValue (VString "x")) None) msgJson (VString "x") None
           0%nat 1 4 w (PBinary [x01])
           (@expectation_json Scenario.builtins _ _) Hv eq_refl).
Defined.

(** X5: [expectText] with a regular expression passes on a text message
    exactly when the expression's [test] accepts the text, and a mismatch
    is reported as "Expected message matching EXPRESSION, got ...". *)
Theorem expectText_regexp `{Builtins} (r : RegExp) (timeout : option Z)
    (ws : nat) (now t : time) (w : world) (s : string) :
  nextMessage now (sockets w ws) timeout = Some (t, PText s) ->
  fst (wsMethods.expectText ws now (ExpRegExp r) timeout w)
  = Settled t (if test r s then Ok VUndefined
               else Err (mkError ("Expected message matching " +:+ regexp_text r
                                  +:+ ", got " +:+ stringify (VString s)))).
Proof.
  intros Hnext. unfold wsMethods.expectText.
  rewrite (expectMessage_received _ _ _ _ _ _ _ _ Hnext). simpl.
  destruct (test r s); reflexivity.
Qed.

Lemma expectText_regexp_witness :
  let w := Scenario.allLike (Scenario.receiving [(4, PText "hello")]) in
  let r := mkRegExp "/^hel*o$/" (String.eqb "hello") in
  fst (@wsMethods.expectText Scenario.builtins 0%nat 1 (ExpRegExp r) None w)
  = Settled 4 (Ok VUndefined).
Proof.
  intros w r.
  exact (@expectText_regexp Scenario.builtins r None 0%nat 1 4 w "hello" eq_refl).
Defined.

(** X6: [expectBinary] with binary data passes on a binary message
    exactly when the bytes are the same, one for one; a mismatch shows
    both in hexadecimal. *)
Theorem expectBinary_bytes `{Builtins} (b b' : list byte) (timeout : option Z)
    (ws : nat) (now t : time) (w : world) :
  nextMessage now (sockets w ws) timeout = Some (t, PBinary b') ->
  fst (wsMethods.expectBinary ws now (BinData b) timeout w)
  = Settled t (if bool_decide (b' = b) then Ok VUndefined
               else Err (mkError ("Expected message " +:+ stringifyBinary b
                                  +:+ ", got " +:+ stringifyBinary b'))).
Proof.
  intros Hnext. unfold wsMethods.expectBinary.
  rewrite (expectMessage_received _ _ _ _ _ _ _ _ Hnext). simpl.
  unfold compareBinary, normaliseBinary.
  destruct (bool_decide (b' = b)); reflexivity.
Qed.

Lemma expectBinary_bytes_witness :
  let w := Scenario.allLike (Scenario.receiving [(4, PBinary [x0a; x14])]) in
  fst (@wsMethods.expectBinary Scenario.builtins 0%nat 1 (BinData [x0a; x1e]) None w)
  = Settled 4 (Err (mkError "Expected message [0a 1e], got [0a 14]")).
Proof.
  intros w.
  exact (@expectBinary_bytes Scenario.builtins [x0a; x1e] [x0a; x14] None 0%nat 1 4 w
           eq_refl).
Defined.

(** ** Waiting for the connection to close *)

(** X7: [expectClosed] settles when the 'close' event fires, and never if
    it does not.  It passes when each of the code and the message that
    were asked for is the one of the event; the code is looked at first,
    and a mismatch shows what was expected and the event's code and
    message.  The expected code is shown as the code prints a number: in
    decimal digits up to [MAX_SAFE_INTEGER]. *)
Theorem expectClosed_compares (ws : nat) (now : time) (oc : option Z)
    (om : option string) (w : world) :
  fst (wsMethods.expectClosed ws now (codeArgument oc) (messageArgument om) w)
  = match closed (sockets w ws) with
    | None => Pending
    | Some (tc, ev) =>
        let got := pretty (code ev) +:+ " " +:+ dquote +:+ closeMessage ev +:+ dquote in
        let messageChecked :=
          match om with
          | Some m =>
              if String.eqb (closeMessage ev) m then Ok VUndefined
              else Err (mkError ("Expected close message " +:+ dquote +:+ m
                                 +:+ dquote +:+ ", got " +:+ got))
          | None => Ok VUndefined
          end in
        Settled (Z.max now tc)
          match oc with
          | Some z =>
              if code ev =? z then messageChecked
              else Err (mkError ("Expected close code " +:+ number_to_string (Num z)
                                 +:+ ", got " +:+ got))
          | None => messageChecked
          end
    end
  /\ snd (wsMethods.expectClosed ws now (codeArgument oc) (messageArgument om) w) = w
  /\ (forall z, oc = Some z -> Z.abs z <= MAX_SAFE_INTEGER ->
                number_to_string (Num z) = pretty z).
Proof.
  split; [|split; [reflexivity|]].
  2: { intros z _ Hsafe. apply number_to_string_safe. exact Hsafe. }
  unfold wsMethods.expectClosed, templated. simpl.
  destruct (closed (sockets w ws)) as [[tc ev]|]; [|reflexivity].
  simpl. rewrite Z.max_id.
  destruct oc as [z|], om as [m|]; simpl;
    repeat match goal with
           | |- context [?a =? ?b] => destruct (a =? b); simpl
           | |- context [String.eqb ?a ?b] => destruct (String.eqb a b); simpl
           end; reflexivity.
Qed.

Lemma expectClosed_compares_witness :
  let s := mkWebSocket (fun _ => OPEN) (fun now _ _ => Settled now (Ok tt))
             (Settled 0 (Ok tt)) [] (Some (6, mkCloseEvent 4321 "Oops")) None None
             [] [] in
  fst (wsMethods.expectClosed 0 2 (VNumber (Num 1000)) VUndefined (Scenario.allLike s))
  = Settled 6 (Err (mkError ("Expected close code 1000, got 4321 "
                             +:+ dquote +:+ "Oops" +:+ dquote))).
Proof.
  intros s.
  destruct (expectClosed_compares 0 2 (Some 1000) None (Scenario.allLike s))
    as (Hfst & _ & Hdigits).
  assert (Hsafe : Z.abs 1000 <= MAX_SAFE_INTEGER) by (vm_compute; discriminate).
  rewrite (Hdigits 1000 eq_refl Hsafe) in Hfst. exact Hfst.
Defined.

(** ** Scripts *)

Lemma invoke_sends `{Builtins} (c : call) (msg options : value) (ws : nat) (now : time) :
  sends c msg options ->
  forall w, invoke c ws now w = returns (sendWithError ws now msg options) w.
Proof.
  intros Hc w. destruct Hc as [| msg text Htext | |]; try reflexivity.
  simpl. unfold wsMethods.sendText. rewrite Htext. reflexivity.
Qed.

Lemma race_no_error {A} (t t' : time) (r : result A) (s : WebSocket) :
  firstError s = None ->
  Promise.race [Promise.observe t (Settled t' r); Promise.observe t (firstErrorPromise s)]
  = Settled (Z.max t t') r.
Proof.
  intros Hnone. unfold firstErrorPromise. rewrite Hnone. reflexivity.
Qed.

Lemma race_error_later {A} (t t' : time) (r : result A) (s : WebSocket) :
  settlesAfter (Z.max t t') (@firstErrorPromise A s) = true ->
  Promise.race [Promise.observe t (Settled t' r); Promise.observe t (firstErrorPromise s)]
  = Settled (Z.max t t') r.
Proof.
  intros Hlater. unfold Promise.race. cbn [foldr Promise.observe].
  rewrite first_pending_r. apply first_wins.
  apply settlesAfter_observe. exact Hlater.
Qed.

(** A send on a reliable connection without errors: the link passes and
    the frame is noted. *)
Lemma send_link `{Builtins} (c : call) (msg options : value) (t : time) (ws : nat)
    (st : runtime) :
  sends c msg options ->
  reliable (sockets (heap st) ws) ->
  firstError (sockets (heap st) ws) = None ->
  exists t' st',
    t <= t'
    /\ thenDo c (Settled t (Ok ws), st) = (Settled t' (Ok ws), st')
    /\ sockets (heap st') ws
       = set_sent (sent (sockets (heap st) ws) ++ [(msg, options)]) (sockets (heap st) ws)
    /\ (forall ws', ws' <> ws -> sockets (heap st') ws' = sockets (heap st) ws').
Proof.
  intros Hc Hreliable Hquiet.
  destruct (Hreliable t msg options) as [tc Hsend].
  erewrite thenDo_returned
    by (rewrite (invoke_sends _ _ _ ws t Hc); apply returns_eq).
  unfold sendWithError, ws_send. simpl. rewrite Hsend. simpl.
  unfold firstErrorPromise. rewrite fn_lookup_insert. simpl. rewrite Hquiet. simpl.
  eexists _, _. split; [|split; [reflexivity|split]].
  - lia.
  - simpl. apply fn_lookup_insert.
  - intros ws' Hne. simpl. apply fn_lookup_insert_ne. congruence.
Qed.

(** X8: a script of sends ([send], [sendText], [sendJson], [sendBinary]
    in any mix) on a connection whose transport confirms every send and
    which reports no error: the chain fulfils with the connection, and the
    transport was handed the frames of the calls, one per call, in the
    order of the calls, behind those it had been handed before. *)
Theorem sends_reach_the_transport_in_order `{Builtins} (cs : list call)
    (frames : list (value * value)) (t : time) (ws : nat) (st : runtime) :
  Forall2 (fun c frame => sends c frame.1 frame.2) cs frames ->
  reliable (sockets (heap st) ws) ->
  firstError (sockets (heap st) ws) = None ->
  exists t',
    t <= t'
    /\ fst (pipeline cs (Settled t (Ok ws), st)) = Settled t' (Ok ws)
    /\ sent (sockets (heap (snd (pipeline cs (Settled t (Ok ws), st)))) ws)
       = sent (sockets (heap st) ws) ++ frames.
Proof.
  intros Hcs. revert t st.
  induction Hcs as [|c [msg options] cs frames Hc _ IH]; intros t st Hreliable Hquiet.
  - exists t. simpl. rewrite app_nil_r. split; [lia|]. split; reflexivity.
  - rewrite pipeline_cons.
    destruct (send_link c msg options t ws st Hc Hreliable Hquiet)
      as (t1 & st1 & Hle & -> & Hsocket & _).
    destruct (IH t1 st1) as (t' & Hle' & Hdone & Hsent).
    + rewrite Hsocket. exact Hreliable.
    + rewrite Hsocket. exact Hquiet.
    + exists t'. split; [lia|]. split; [exact Hdone|].
      rewrite Hsent, Hsocket. simpl. rewrite <- app_assoc. reflexivity.
Qed.

Lemma sends_reach_the_transport_in_order_witness :
  let st := Scenario.fresh (Scenario.allLike Scenario.idle) in
  let script := [SendText (VNumber (Num 1)); SendBinary [x0a];
                 Send (VString "raw") VNull] in
  exists t',
    0 <= t'
    /\ fst (@pipeline Scenario.builtins script (Settled 0 (Ok 0%nat), st))
       = Settled t' (Ok 0%nat)
    /\ sent (sockets (heap (snd (@pipeline Scenario.builtins script
                                   (Settled 0 (Ok 0%nat), st)))) 0%nat)
       = [] ++ [(VString "1", VUndefined);
                (VBytes [x0a], VObject [("binary"%string, VBool true)]);
                (VString "raw", VNull)].
Proof.
  intros st script.
  apply (@sends_reach_the_transport_in_order Scenario.builtins script
           [(VString "1", VUndefined);
            (VBytes [x0a], VObject [("binary"%string, VBool true)]);
            (VString "raw", VNull)] 0 0%nat st).
  - repeat constructor.
  - intros now msg options. exists now. reflexivity.
  - reflexivity.
Defined.

(** An expectation that the next message satisfies, on a connection that
    neither closes nor reports an error: the link passes when the message
    is there, and the message is taken off the queue. *)
Lemma expectation_link `{Builtins} (c : call) (m : payload) (ta t : time) (ws : nat)
    (q : list (time * payload)) (st : runtime) :
  accepts c m ->
  messages (sockets (heap st) ws) = (ta, m) :: q ->
  closed (sockets (heap st) ws) = None ->
  firstError (sockets (heap st) ws) = None ->
  exists st',
    thenDo c (Settled t (Ok ws), st) = (Settled (Z.max t ta) (Ok ws), st')
    /\ sockets (heap st') ws = set_messages q (sockets (heap st) ws).
Proof.
  intros (conversion & check & v & r & Hc & Hconv & Hcheck) Hmsg Hclosed Hquiet.
  assert (Hnext : nextMessage t (sockets (heap st) ws) None = Some (Z.max t ta, m)).
  { unfold nextMessage. rewrite Hmsg, Hclosed. reflexivity. }
  pose proof (expectMessage_received ws t _ conversion check None (heap st) m Hnext)
    as Hop.
  rewrite Hconv, Hcheck in Hop.
  assert (Hworld : sockets (snd (wsMethods.expectMessage ws t conversion check None
                                   (heap st))) ws
                   = set_messages q (sockets (heap st) ws)).
  { unfold wsMethods.expectMessage. rewrite Hmsg. simpl. apply fn_lookup_insert. }
  erewrite thenDo_returned
    by (rewrite (invoke_expectation _ _ _ _ ws t Hc); apply returns_eq).
  revert Hop Hworld.
  destruct (wsMethods.expectMessage ws t conversion check None (heap st)) as [p w1].
  cbn [fst snd]. intros -> Hworld.
  rewrite race_no_error by (rewrite Hworld; exact Hquiet).
  rewrite Z.max_assoc, Z.max_id.
  eexists. split; [reflexivity | exact Hworld].
Qed.

(** X9: messages are consumed in the order of their arrival, one per
    expectation.  When the payloads at the head of the queue satisfy, in
    order, the expectations of a script (the first payload the first
    expectation, and so on), on a connection that neither closes nor
    reports an error, the chain fulfils with the connection and the queue
    is left with the payloads behind them. *)
Theorem expectations_consume_in_order `{Builtins} (cs : list call)
    (ms rest : list (time * payload)) (t : time) (ws : nat) (st : runtime) :
  Forall2 (fun c tm => accepts c tm.2) cs ms ->
  messages (sockets (heap st) ws) = ms ++ rest ->
  closed (sockets (heap st) ws) = None ->
  firstError (sockets (heap st) ws) = None ->
  exists t',
    t <= t'
    /\ fst (pipeline cs (Settled t (Ok ws), st)) = Settled t' (Ok ws)
    /\ messages (sockets (heap (snd (pipeline cs (Settled t (Ok ws), st)))) ws) = rest.
Proof.
  intros Hcs. revert t st.
  induction Hcs as [|c [ta m] cs ms Hc _ IH]; intros t st Hmsg Hclosed Hquiet.
  - exists t. split; [lia|]. split; [reflexivity | exact Hmsg].
  - rewrite pipeline_cons.
    destruct (expectation_link c m ta t ws (ms ++ rest) st Hc Hmsg Hclosed Hquiet)
      as (st1 & -> & Hsocket).
    destruct (IH (Z.max t ta) st1) as (t' & Hle & Hdone & Hleft).
    + rewrite Hsocket. reflexivity.
    + rewrite Hsocket. exact Hclosed.
    + rewrite Hsocket. exact Hquiet.
    + exists t'. split; [lia|]. split; assumption.
Qed.

Lemma expectations_consume_in_order_witness :
  let queue := [(3, PText "hello"); (8, PBinary [x6f]); (9, PText "more")] in
  let st := Scenario.fresh (Scenario.allLike (Scenario.receiving queue)) in
  let script := [ExpectText (ExpCheck (CheckValue (VString "hello"))) None;
                 ExpectBinary BinNothing None] in
  exists t',
    1 <= t'
    /\ fst (@pipeline Scenario.builtins script (Settled 1 (Ok 0%nat), st))
       = Settled t' (Ok 0%nat)
    /\ messages (sockets (heap (snd (@pipeline Scenario.builtins script
                                       (Settled 1 (Ok 0%nat), st)))) 0%nat)
       = [(9, PText "more")].
Proof.
  intros queue st script.
  apply (@expectations_consume_in_order Scenario.builtins script
           [(3, PText "hello"); (8, PBinary [x6f])] [(9, PText "more")] 1 0%nat st);
    try reflexivity.
  constructor; [|constructor; [|constructor]].
  - exists msgText, (CheckValue (VString "hello")), (VString "hello"), VUndefined.
    split; [exact (@expectation_text Scenario.builtins _ _) | split; reflexivity].
  - exists msgBinary, (CheckValue VUndefined), (VBytes [x6f]), VUndefined.
    split; [exact (@expectation_binary Scenario.builtins BinNothing None)
           | split; reflexivity].
Defined.

(** A [wait] on a connection whose first error, if any, comes after the
    delay. *)
Lemma wait_link `{Builtins} (ms : Z) (t : time) (ws : nat) (st : runtime) :
  happensAfter (t + Promise.delay ms) (firstError (sockets (heap st) ws)) = true ->
  thenDo (Wait ms) (Settled t (Ok ws), st)
  = (Settled (t + Promise.delay ms) (Ok ws),
     mkRuntime (heap st)
       (journal st ++ [Invoked t (Wait ms); Passed (t + Promise.delay ms) (Wait ms)])).
Proof.
  intros Hquiet.
  pose proof (delay_positive ms) as Hdelay.
  assert (Hinvoke : invoke (Wait ms) ws t (heap st)
                    = (Ok (Settled (t + Promise.delay ms) (Ok VUndefined)), heap st)).
  { unfold invoke, returns, wsMethods.wait, Promise.timer, Promise.then_sync. simpl.
    rewrite Z.max_id. reflexivity. }
  rewrite (thenDo_returned _ _ _ _ _ _ Hinvoke).
  rewrite race_error_later; rewrite (Z.max_r t) by lia.
  - reflexivity.
  - apply firstErrorPromise_after. exact Hquiet.
Qed.

(** X10: waiting times add up.  A script of [wait]s started at [t] fulfils
    with the connection when the delays have passed one after the other,
    each as the timer takes it (a delay below 1, or above [TIMEOUT_MAX],
    lasts one millisecond), provided that no error of the connection comes
    by then; the waits leave the sockets and the registry as they were. *)
Theorem waits_add_up `{Builtins} (delays : list Z) (t : time) (ws : nat) (st : runtime) :
  happensAfter (afterWaits t delays) (firstError (sockets (heap st) ws)) = true ->
  fst (pipeline (map Wait delays) (Settled t (Ok ws), st))
  = Settled (afterWaits t delays) (Ok ws)
  /\ heap (snd (pipeline (map Wait delays) (Settled t (Ok ws), st))) = heap st
  /\ afterWaits t delays = t + foldr Z.add 0 (map Promise.delay delays)
  /\ (Forall (fun ms => 1 <= ms <= Promise.TIMEOUT_MAX) delays ->
      afterWaits t delays = t + foldr Z.add 0 delays).
Proof.
  assert (Hsum : forall ds u, afterWaits u ds = u + foldr Z.add 0 (map Promise.delay ds)).
  { clear. induction ds as [|d ds IHds]; intros u; simpl; [lia|].
    unfold afterWaits in *. simpl. rewrite IHds. lia. }
  assert (Hmono : forall ds u, u <= afterWaits u ds).
  { clear -Hsum. intros ds u. rewrite Hsum.
    assert (0 <= foldr Z.add 0 (map Promise.delay ds)); [|lia].
    induction ds as [|d ds IHds]; simpl; [lia|].
    pose proof (delay_positive d). lia. }
  assert (Hrun : forall ds u st',
             happensAfter (afterWaits u ds) (firstError (sockets (heap st') ws)) = true ->
             fst (pipeline (map Wait ds) (Settled u (Ok ws), st'))
             = Settled (afterWaits u ds) (Ok ws)
             /\ heap (snd (pipeline (map Wait ds) (Settled u (Ok ws), st'))) = heap st').
  { clear t st. induction ds as [|ms ds IH]; intros t st Hquiet.
    - split; reflexivity.
    - simpl map. rewrite pipeline_cons.
      rewrite wait_link.
      + apply (IH (t + Promise.delay ms)
                 (mkRuntime (heap st)
                    (journal st ++ [Invoked t (Wait ms);
                                    Passed (t + Promise.delay ms) (Wait ms)]))).
        exact Hquiet.
      + specialize (Hmono ds (t + Promise.delay ms)).
        change (afterWaits t (ms :: ds)) with (afterWaits (t + Promise.delay ms) ds)
          in Hquiet.
        destruct (firstError (sockets (heap st) ws)) as [[te e]|]; [|reflexivity].
        simpl in *. apply Z.ltb_lt in Hquiet. apply Z.ltb_lt. lia. }
  intros Hquiet. destruct (Hrun delays t st Hquiet) as [Hfst Hheap].
  split; [exact Hfst|]. split; [exact Hheap|]. split; [apply Hsum|].
  intros Hrange. rewrite Hsum. f_equal. clear -Hrange.
  induction Hrange as [|d ds [Hlo Hhi] _ IHr]; cbn [map foldr]; [reflexivity|].
  rewrite IHr. rewrite delay_in_range; [reflexivity | lia | exact Hhi].
Qed.

Lemma waits_add_up_witness :
  let st := Scenario.fresh (Scenario.allLike Scenario.idle) in
  fst (@pipeline Scenario.builtins (map Wait [500; -3; 20]) (Settled 10 (Ok 0%nat), st))
  = Settled 531 (Ok 0%nat)
  /\ fst (@pipeline Scenario.builtins (map Wait [0; 0]) (Settled 10 (Ok 0%nat), st))
     = Settled 12 (Ok 0%nat).
Proof.
  intros st. split.
  - exact (proj1 (@waits_add_up Scenario.builtins [500; -3; 20] 10 0%nat st eq_refl)).
  - exact (proj1 (@waits_add_up Scenario.builtins [0; 0] 10 0%nat st eq_refl)).
Defined.

(** ** What a script leaves alone *)

Lemma touchesOnly_refl (ws : nat) (w : world) : touchesOnly ws w w.
Proof. unfold touchesOnly. repeat split; auto; set_solver. Qed.

Lemma touchesOnly_trans (ws : nat) (w1 w2 w3 : world) :
  touchesOnly ws w1 w2 -> touchesOnly ws w2 w3 -> touchesOnly ws w1 w3.
Proof.
  intros (Ho & Hl & Hc & He & Hsub & Hsup) (Ho' & Hl' & Hc' & He' & Hsub' & Hsup').
  unfold touchesOnly. repeat split; try congruence.
  - intros ws' Hne. rewrite Ho', Ho by assumption. reflexivity.
  - set_solver.
  - set_solver.
Qed.

Lemma touchesOnly_update (ws : nat) (w : world) (s' : WebSocket) :
  lineState s' = lineState (sockets w ws) ->
  closed s' = closed (sockets w ws) ->
  firstError s' = firstError (sockets w ws) ->
  touchesOnly ws w {| sockets := <[ws := s']> (sockets w);
                      clientSockets := clientSockets w;
                      closeRefuses := closeRefuses w |}.
Proof.
  intros Hl Hc He. unfold touchesOnly. simpl. rewrite fn_lookup_insert.
  repeat split; auto; try set_solver.
  intros ws' Hne. apply fn_lookup_insert_ne. congruence.
Qed.

Lemma touchesOnly_ws_close (ws : nat) (now : time) (code message : value) (w : world) :
  touchesOnly ws w (snd (ws_close ws now code message w)).
Proof.
  unfold touchesOnly, ws_close.
  destruct (closeRefusal ws now code message w); simpl; rewrite fn_lookup_alter;
    (repeat split; auto; try set_solver);
    intros ws' Hne; apply fn_lookup_alter_ne; congruence.
Qed.

Lemma sendWithError_touchesOnly (ws : nat) (now : time) (msg options : value) (w : world) :
  touchesOnly ws w (snd (sendWithError ws now msg options w)).
Proof. unfold sendWithError, ws_send. simpl. apply touchesOnly_update; reflexivity. Qed.

Lemma expectMessage_touchesOnly `{Builtins} (ws : nat) (now : time)
    (conversion : payload -> result value) (check : Check_) (timeout : option Z)
    (w : world) :
  touchesOnly ws w (snd (wsMethods.expectMessage ws now conversion check timeout w)).
Proof.
  unfold wsMethods.expectMessage.
  destruct (BlockingQueue.pop now (messages (sockets w ws))) as [popped q].
  simpl. apply touchesOnly_update; reflexivity.
Qed.

Lemma invoke_touchesOnly `{Builtins} (c : call) (ws : nat) (now : time) (w : world) :
  notExec c = true -> touchesOnly ws w (snd (invoke c ws now w)).
Proof.
  destruct c; cbn [notExec invoke]; intros Hc; try discriminate;
    rewrite ?snd_returns;
    unfold wsMethods.send, wsMethods.sendJson,
      wsMethods.sendBinary, wsMethods.expectText, wsMethods.expectJson,
      wsMethods.expectBinary;
    try first [ apply sendWithError_touchesOnly
              | apply expectMessage_touchesOnly
              | apply touchesOnly_refl ].
  - unfold wsMethods.sendText. destruct (String_ msg) as [text|e].
    + rewrite snd_returns. apply sendWithError_touchesOnly.
    + apply touchesOnly_refl.
  - unfold wsMethods.close.
    pose proof (touchesOnly_ws_close ws now code0 message0 w) as Hclose.
    destruct (ws_close ws now code0 message0 w) as [[[]|e] w1]; exact Hclose.
Qed.

Lemma thenDo_touchesOnly `{Builtins} (c : call) (t : time) (ws : nat) (st : runtime) :
  notExec c = true ->
  touchesOnly ws (heap st) (heap (snd (thenDo c (Settled t (Ok ws), st)))).
Proof.
  intros Hc.
  pose proof (invoke_touchesOnly c ws t (heap st) Hc) as Hinvoke.
  destruct (invoke c ws t (heap st)) as [[p|e] w1] eqn:Hcall; simpl in Hinvoke.
  - rewrite (thenDo_returned _ _ _ _ _ _ Hcall).
    destruct (Promise.race _) as [t' [a|e]|]; cbn [snd heap]; try exact Hinvoke.
    destruct (isOpen t' (sockets w1 ws)); [|exact Hinvoke].
    eapply touchesOnly_trans; [exact Hinvoke | apply touchesOnly_ws_close].
  - rewrite (thenDo_threw _ _ _ _ _ _ Hcall). exact Hinvoke.
Qed.

(** X11: a script without [exec] acts on its own connection only.
    Whatever its steps and however they end, every other socket is left
    exactly as it was, the registry gains no socket and loses at most the
    script's own, and what the transport reports about the script's socket
    (ready state of the line, 'close' event, first error) is not altered. *)
Theorem script_keeps_to_its_connection `{Builtins} (cs : list call) (t : time)
    (ws : nat) (st : runtime) :
  forallb notExec cs = true ->
  touchesOnly ws (heap st) (heap (snd (pipeline cs (Settled t (Ok ws), st)))).
Proof.
  revert t st. induction cs as [|c cs IH]; intros t st Hcs.
  - apply touchesOnly_refl.
  - simpl in Hcs. apply andb_true_iff in Hcs as [Hc Hcs].
    rewrite pipeline_cons.
    pose proof (thenDo_touchesOnly c t ws st Hc) as Hlink.
    destruct (thenDo_cases c t ws st)
      as [(t' & w1 & _ & Heq) | [(t' & e & w1 & _ & Heq)
                                | [(w1 & Heq) | (e & w1 & Heq)]]];
      rewrite Heq in *; simpl in Hlink.
    + eapply touchesOnly_trans; [exact Hlink|].
      apply (IH t' (mkRuntime w1 _) Hcs).
    + rewrite pipeline_rejected. exact Hlink.
    + rewrite pipeline_pending. exact Hlink.
    + rewrite pipeline_rejected. exact Hlink.
Qed.

Lemma script_keeps_to_its_connection_witness :
  let w := snd (wsRequest 1 (heap (snd (wsRequest 0 (Scenario.allLike Scenario.idle))))) in
  let script := [SendText (VString "a"); Close VUndefined VUndefined;
                 ExpectClosed VUndefined VUndefined] in
  touchesOnly 0 (heap w)
    (heap (snd (@pipeline Scenario.builtins script (Settled 2 (Ok 0%nat), w)))).
Proof.
  intros w script.
  exact (@script_keeps_to_its_connection Scenario.builtins script 2 0%nat w eq_refl).
Defined.

Lemma closeAll_passes_over (ws : nat) (now : time) (w : world) :
  isOpen now (sockets w ws) = false ->
  sockets (snd (closeAll now w)) ws = sockets w ws.
Proof.
  intros Hclosed. unfold closeAll. cbn [snd].
  rewrite closeAll_fold_sockets.
  - rewrite bool_decide_eq_false_2; [reflexivity|].
    intros Hin. apply list_elem_of_In, filter_In in Hin as [_ Hopen].
    simpl in Hopen. congruence.
  - apply NoDup_ListNoDup. unfold registered.
    do 2 apply List.NoDup_filter. apply NoDup_ListNoDup, NoDup_elements.
Qed.

(** X12: [ws.close(code, message)], as [wsRequest] wraps it, hands the
    call to the transport.  When the transport accepts the call, the
    socket is taken out of the registry; when the transport refuses the
    arguments and throws, the wrapper throws with it and the socket stays
    in the registry if it was there.  Either way the socket is no longer
    open, so that a later [closeAll] does not call [close] on it again:
    its record of [close] calls has the one call. *)
Theorem closeAll_skips_closed_socket (ws : nat) (now later : time)
    (code message : value) (w : world) :
  (closeRefusal ws now code message w = None ->
   fst (ws_close ws now code message w) = Ok tt
   /\ ws ∉ clientSockets (snd (ws_close ws now code message w)))
  /\ (forall e,
        closeRefusal ws now code message w = Some e ->
        fst (ws_close ws now code message w) = Err e
        /\ clientSockets (snd (ws_close ws now code message w)) = clientSockets w)
  /\ closeRefusal ws now VUndefined message w = None
  /\ isOpen later (sockets (snd (ws_close ws now code message w)) ws) = false
  /\ closeCalls (sockets (snd (closeAll later (snd (ws_close ws now code message w)))) ws)
     = closeCalls (sockets w ws) ++ [(code, message)].
Proof.
  split; [|split; [|split; [|split]]].
  - intros Haccepted. unfold ws_close. rewrite Haccepted. simpl.
    split; [reflexivity | set_solver].
  - intros e Hrefused. unfold ws_close. rewrite Hrefused. split; reflexivity.
  - reflexivity.
  - apply isOpen_ws_close.
  - rewrite closeAll_passes_over by apply isOpen_ws_close.
    unfold ws_close. destruct (closeRefusal ws now code message w); simpl;
      rewrite fn_lookup_alter; reflexivity.
Qed.

Lemma closeAll_skips_closed_socket_witness :
  let w := heap (snd (wsRequest 0 (Scenario.allLike Scenario.idle))) in
  let refused := ws_close 0 3 (VNumber (Num 5000)) VUndefined w in
  let accepted := ws_close 0 3 (VNumber (Num 1000)) VUndefined w in
  fst refused = Err (mkError "First argument must be a valid error code number")
  /\ clientSockets (snd refused) = clientSockets w
  /\ 0%nat ∉ clientSockets (snd accepted).
Proof.
  intros w refused accepted.
  destruct (closeAll_skips_closed_socket 0 3 9 (VNumber (Num 5000)) VUndefined w)
    as (_ & Hrefused & _).
  destruct (closeAll_skips_closed_socket 0 3 9 (VNumber (Num 1000)) VUndefined w)
    as (Haccepted & _).
  split; [|split].
  - exact (proj1 (Hrefused _ eq_refl)).
  - exact (proj2 (Hrefused _ eq_refl)).
  - exact (proj2 (Haccepted eq_refl)).
Defined.

(** ** A handshake that fails *)


(** X14: [expectConnectionError] with no expected status, or with [null],
    accepts every rejection of the handshake; with a text that is not
    empty it accepts the rejection whose message is that very text and
    fails on every other with "Expected connection failure with message
    ..., got ...".  In neither case does it call [close]. *)
Theorem expectConnectionError_text (t : time) (st : runtime) (error : Error) :
  fst (expectConnectionError VUndefined (Settled t (Err error), st))
  = Settled t (Ok VUndefined)
  /\ fst (expectConnectionError VNull (Settled t (Err error), st))
     = Settled t (Ok VUndefined)
  /\ (forall expected c rest, expected = String c rest ->
        expectConnectionError (VString expected) (Settled t (Err error), st)
        = (Settled t
             (if String.eqb (message error) expected then Ok VUndefined
              else Err (mkError ("Expected connection failure with message "
                                 +:+ dquote +:+ expected +:+ dquote
                                 +:+ ", got " +:+ dquote +:+ message error
                                 +:+ dquote))),
           st)).
Proof.
  split; [|split].
  - unfold expectConnectionError, Async.then2. simpl. rewrite Z.max_id. reflexivity.
  - unfold expectConnectionError, Async.then2. simpl. rewrite Z.max_id. reflexivity.
  - intros expected c rest ->.
    unfold expectConnectionError, Async.then2, checkConnectionError. simpl.
    rewrite Z.max_id. destruct (String.eqb (message error) (String c rest)); reflexivity.
Qed.

Lemma expectConnectionError_text_witness :
  expectConnectionError (VString "socket hang up")
    (Settled 7 (Err (mkError "socket hang up")),
     Scenario.fresh (Scenario.allLike Scenario.idle))
  = (Settled 7 (Ok VUndefined), Scenario.fresh (Scenario.allLike Scenario.idle)).
Proof.
  exact (proj2 (proj2 (expectConnectionError_text 7
                         (Scenario.fresh (Scenario.allLike Scenario.idle))
                         (mkError "socket hang up")))
           "socket hang up"%string _ _ eq_refl).
Defined.

(** ** Shutting the server down *)

Lemma has_earlier (t t' : time) (s : Peer) :
  t <= t' -> has t' s = true -> has t s = true.
Proof.
  unfold has. destruct (leaves s) as [tl|]; [|reflexivity].
  rewrite !Z.ltb_lt. lia.
Qed.

Lemma pollUntil_step (expire : time) (s : Peer) (t : time) :
  pollUntil expire s t
  = if Z_lt_dec t expire
    then (if has t s then pollUntil expire s (t + 20) else None)
    else (if has t s then Some t else None).
Proof.
  rewrite pollUntil_equation_1. destruct (Z_lt_dec t expire); simpl.
  - destruct (has t s); [|reflexivity]. rewrite pollUntil_equation_1. reflexivity.
  - reflexivity.
Qed.

(** The loop, entered before the expiry: [s.end()] is called at the first
    poll that is not before the expiry, if the peer is still there. *)
Lemma pollUntil_some (expire : time) (s : Peer) (t te : time) :
  pollUntil expire s t = Some te ->
  t <= te /\ (expire <= te < expire + 20 \/ te = t /\ expire <= t) /\ has te s = true.
Proof.
  remember (Z.to_nat (expire - t)) as n eqn:Hn. revert t Hn.
  induction n as [n IH] using lt_wf_ind. intros t Hn.
  rewrite pollUntil_step.
  destruct (Z_lt_dec t expire) as [Hlt|Hge]; destruct (has t s) eqn:Hhas;
    try discriminate.
  - intros Hpoll.
    destruct (IH (Z.to_nat (expire - (t + 20))) ltac:(lia) (t + 20) eq_refl Hpoll)
      as (Hle & Hwhen & Hstill).
    split; [lia|]. split; [|exact Hstill]. left. lia.
  - intros [= <-]. split; [lia|]. split; [right; lia | exact Hhas].
Qed.

Lemma pollUntil_none (expire : time) (s : Peer) (t : time) :
  pollUntil expire s t = None -> has (Z.max t (expire + 19)) s = false.
Proof.
  remember (Z.to_nat (expire - t)) as n eqn:Hn. revert t Hn.
  induction n as [n IH] using lt_wf_ind. intros t Hn.
  rewrite pollUntil_step.
  assert (Hgone : forall u, t <= u -> has t s = false -> has u s = false).
  { intros u Hle Hnot. destruct (has u s) eqn:Hu; [|reflexivity].
    rewrite (has_earlier t u s Hle Hu) in Hnot. discriminate. }
  destruct (Z_lt_dec t expire) as [Hlt|Hge]; destruct (has t s) eqn:Hhas;
    try discriminate.
  - intros Hpoll.
    pose proof (IH (Z.to_nat (expire - (t + 20))) ltac:(lia) (t + 20) eq_refl Hpoll)
      as Hleft.
    destruct (has (Z.max t (expire + 19)) s) eqn:Hu; [|reflexivity].
    rewrite (has_earlier (Z.max (t + 20) (expire + 19)) (Z.max t (expire + 19)) s)
      in Hleft; [discriminate | lia | exact Hu].
  - intros _. apply Hgone; [lia | reflexivity].
  - intros _. apply Hgone; [lia | reflexivity].
Qed.

(** X15: [performShutdown] honours the grace period.  Every peer it ends
    was among the sockets it was given and is still connected at the
    instant it is ended; with a delay that is not positive that instant
    is the instant of the call, with a positive delay it is not before
    the delay has passed and less than one polling interval (20 ms)
    after.  A peer that is still connected when the last poll is due is
    ended. *)
Theorem performShutdown_honours_grace (now : time) (sockets : list Peer) (delay : Z) :
  (forall id te,
      (id, te) ∈ performShutdown now sockets delay ->
      (exists s, s ∈ sockets /\ peerId s = id /\ has te s = true)
      /\ now + Z.max 0 delay <= te < now + Z.max 0 delay + 20
      /\ (delay <= 0 -> te = now))
  /\ (forall s,
        s ∈ sockets ->
        has (now + Z.max 0 delay + 19) s = true ->
        exists te, (peerId s, te) ∈ performShutdown now sockets delay).
Proof.
  unfold performShutdown. split.
  - intros id te Hin. destruct (Z.leb_spec delay 0) as [Hle|Hgt].
    + apply list_elem_of_In, in_map_iff in Hin as (s & [= <- <-] & Hs).
      apply filter_In in Hs as [Hs Hhas]. apply list_elem_of_In in Hs.
      split; [eauto|]. split; [lia | reflexivity].
    + apply list_elem_of_omap in Hin as (s & Hs & Hpoll).
      apply list_elem_of_In, filter_In in Hs as [Hs _]. apply list_elem_of_In in Hs.
      destruct (pollUntil (now + delay) s now) as [t|] eqn:Hloop; [|discriminate].
      simpl in Hpoll. injection Hpoll as <- <-.
      apply pollUntil_some in Hloop as (Hfrom & Hwhen & Hstill).
      split; [eauto|]. split; lia.
  - intros s Hs Hhas. destruct (Z.leb_spec delay 0) as [Hle|Hgt].
    + exists now. apply list_elem_of_In, in_map_iff. exists s.
      split; [reflexivity|]. apply filter_In. split; [apply list_elem_of_In, Hs|].
      apply (has_earlier now (now + Z.max 0 delay + 19)); [lia | exact Hhas].
    + destruct (pollUntil (now + delay) s now) as [te|] eqn:Hloop.
      * exists te. apply list_elem_of_omap. exists s. split.
        -- apply list_elem_of_In, filter_In. split; [apply list_elem_of_In, Hs|].
           apply (has_earlier now (now + Z.max 0 delay + 19)); [lia | exact Hhas].
        -- rewrite Hloop. reflexivity.
      * apply pollUntil_none in Hloop.
        rewrite (has_earlier (Z.max now (now + delay + 19))
                   (now + Z.max 0 delay + 19) s) in Hloop;
          [discriminate | lia | exact Hhas].
Qed.

Lemma performShutdown_honours_grace_witness :
  exists te,
    (1%nat, te) ∈ performShutdown 100
                    [mkPeer 1 None; mkPeer 2 (Some 130); mkPeer 3 (Some 90)] 50.
Proof.
  apply (proj2 (performShutdown_honours_grace 100
                  [mkPeer 1 None; mkPeer 2 (Some 130); mkPeer 3 (Some 90)] 50)
           (mkPeer 1 None)).
  - constructor.
  - reflexivity.
Defined.

(** Three peers and a grace period of 50 ms from instant 100: the first
    never closes and is ended at the poll of 160, the second closes by
    itself at 130, the third had closed before the call. *)
Example performShutdown_three_peers :
  performShutdown 100 [mkPeer 1 None; mkPeer 2 (Some 130); mkPeer 3 (Some 90)] 50
  = [(1%nat, 160)]
  /\ performShutdown 100 [mkPeer 1 None; mkPeer 2 (Some 130); mkPeer 3 (Some 90)] 0
     = [(1%nat, 100); (2%nat, 100)].
Proof. split; reflexivity. Qed.

Lemma requests_registered (srv : nat) (delays : list Z) (b : backstage) (c : TestConfig) :
  listening (servers b srv) = true ->
  serverTestConfigs b !! srv = Some c ->
  exists b',
    requests srv delays b = Ok b'
    /\ servers b' = servers b
    /\ serverTestConfigs b' !! srv
       = Some (mkTestConfig (foldl Z.max (shutdownDelay c) delays) (serverSockets c))
    /\ (forall other, other <> srv ->
                      serverTestConfigs b' !! other = serverTestConfigs b !! other).
Proof.
  unfold requests. revert b c.
  induction delays as [|d delays IH]; intros b c Hlistening Hconfig.
  - exists b. simpl. destruct c. auto.
  - simpl. rewrite Hlistening. simpl. unfold registerShutdown. rewrite Hconfig.
    edestruct (IH (mkBackstage (servers b)
                     (<[srv := mkTestConfig (Z.max (shutdownDelay c) d)
                                 (serverSockets c)]> (serverTestConfigs b)))
                  (mkTestConfig (Z.max (shutdownDelay c) d) (serverSockets c)))
      as (b' & Hdone & Hservers & Hdelay & Hothers).
    + exact Hlistening.
    + simpl. apply lookup_insert_eq.
    + exists b'. split; [exact Hdone|]. split; [exact Hservers|].
      split; [exact Hdelay|].
      intros other Hne. rewrite Hothers by exact Hne. simpl.
      apply lookup_insert_ne. congruence.
Qed.

Lemma foldl_max_elem (d : Z) (delays : list Z) : foldl Z.max d delays ∈ d :: delays.
Proof.
  revert d. induction delays as [|x delays IH]; intros d; simpl; [constructor|].
  specialize (IH (Z.max d x)). apply elem_of_cons in IH as [Hhead|Htail].
  - rewrite Hhead. destruct (Z.max_spec d x) as [[_ ->]|[_ ->]].
    + apply elem_of_cons. right. constructor.
    + constructor.
  - apply elem_of_cons. right. apply elem_of_cons. right. exact Htail.
Qed.

(** X16: calling [request] again on a server raises its shutdown delay
    and never lowers it.  After calls with the delays [d :: delays] on a
    listening server that was not known before, the delay on record is the
    largest of them; the servers themselves and the records of the other
    servers are as before. *)
Theorem requests_keep_largest_delay (srv : nat) (d : Z) (delays : list Z) (b : backstage) :
  listening (servers b srv) = true ->
  serverTestConfigs b !! srv = None ->
  exists b',
    requests srv (d :: delays) b = Ok b'
    /\ servers b' = servers b
    /\ serverTestConfigs b' !! srv = Some (mkTestConfig (foldl Z.max d delays) [])
    /\ Forall (fun x => x <= foldl Z.max d delays) (d :: delays)
    /\ foldl Z.max d delays ∈ d :: delays
    /\ (forall other, other <> srv ->
                      serverTestConfigs b' !! other = serverTestConfigs b !! other).
Proof.
  intros Hlistening Hnew.
  assert (Hfirst : request (ServerHandle srv) (Some d) b
                   = Ok (mkBackstage (servers b)
                           (<[srv := mkTestConfig d []]> (serverTestConfigs b)))).
  { unfold request, registerShutdown. rewrite Hlistening, Hnew. reflexivity. }
  destruct (requests_registered srv delays
              (mkBackstage (servers b) (<[srv := mkTestConfig d []]> (serverTestConfigs b)))
              (mkTestConfig d []))
    as (b' & Hdone & Hservers & Hdelay & Hothers).
  - exact Hlistening.
  - simpl. apply lookup_insert_eq.
  - exists b'. split.
    + unfold requests in *. cbn [foldl]. rewrite Hfirst. exact Hdone.
    + split; [exact Hservers|]. split; [exact Hdelay|]. split.
      * clear. revert d. induction delays as [|x delays IH]; intros d.
        -- constructor; [simpl; lia | constructor].
        -- simpl. specialize (IH (Z.max d x)).
           apply Forall_cons in IH as [Hmax Hrest].
           assert (Hmono : forall l a, a <= foldl Z.max a l).
           { clear. induction l as [|y l IHl]; intros a; simpl; [lia|].
             specialize (IHl (Z.max a y)). lia. }
           constructor; [|constructor]; try assumption.
           ++ specialize (Hmono delays (Z.max d x)). lia.
           ++ specialize (Hmono delays (Z.max d x)). lia.
      * split; [apply foldl_max_elem|].
        intros other Hne. rewrite Hothers by exact Hne. simpl.
        apply lookup_insert_ne. congruence.
Qed.

Lemma requests_keep_largest_delay_witness :
  let s := mkHttpServer true (fun path => "http://127.0.0.1:8080" +:+ path) [] [] 0 in
  let b := mkBackstage (fun _ => s) ∅ in
  exists b',
    requests 0 [100; 500; 200] b = Ok b'
    /\ serverTestConfigs b' !! 0%nat = Some (mkTestConfig 500 []).
Proof.
  intros s b.
  destruct (requests_keep_largest_delay 0 100 [500; 200] b eq_refl eq_refl)
    as (b' & Hdone & _ & Hdelay & _ & _ & _).
  exists b'. split; [exact Hdone | exact Hdelay].
Defined.

(** X17: closing a registered server that listens shuts its peers down
    once.  The first [server.close] makes the [end] calls of
    [performShutdown] for the delay on record, puts the delay back to 0
    and hands the callback to the server's own [close]; a second
    [server.close], whenever it comes, ends no peer and does not reach the
    server's own [close]: it only runs its callback, if it has one.  Until
    the server listens again, [request] on it throws, and so does
    [getServerWsPath]. *)
Theorem server_close_shuts_down_once (srv : nat) (now later : time)
    (callback callback' : bool) (b : backstage) (c : TestConfig) :
  serverTestConfigs b !! srv = Some c ->
  listening (servers b srv) = true ->
  let b1 := server_close srv now callback b in
  let b2 := server_close srv later callback' b1 in
  ended (servers b1 srv)
  = ended (servers b srv) ++ performShutdown now (serverSockets c) (shutdownDelay c)
  /\ originalCloseCalls (servers b1 srv) = originalCloseCalls (servers b srv) ++ [callback]
  /\ serverTestConfigs b1 !! srv = Some (mkTestConfig 0 (serverSockets c))
  /\ ended (servers b2 srv) = ended (servers b1 srv)
  /\ originalCloseCalls (servers b2 srv) = originalCloseCalls (servers b1 srv)
  /\ callbacksRun (servers b2 srv)
     = (callbacksRun (servers b srv) + (if callback' then 1 else 0))%nat
  /\ (forall delay, request (ServerHandle srv) delay b1
                    = Err (mkError
                        "Server must be listening: beforeEach((done) => server.listen(0, done));"))
  /\ (forall path, getServerWsPath b1 (ServerHandle srv) path
                   = Err (mkError "Server was closed")).
Proof.
  intros Hconfig Hlistening b1 b2.
  assert (Hb1 : servers b1 srv
                = server_originalClose callback
                    (mkHttpServer (listening (servers b srv))
                       (serverAddress (servers b srv))
                       (ended (servers b srv)
                        ++ performShutdown now (serverSockets c) (shutdownDelay c))
                       (originalCloseCalls (servers b srv))
                       (callbacksRun (servers b srv)))).
  { unfold b1, server_close. rewrite Hconfig, Hlistening. simpl.
    apply fn_lookup_insert. }
  assert (Hc1 : serverTestConfigs b1 !! srv = Some (mkTestConfig 0 (serverSockets c))).
  { unfold b1, server_close. rewrite Hconfig, Hlistening. simpl.
    apply lookup_insert_eq. }
  assert (Hb2 : servers b2 srv
                = if callback'
                  then mkHttpServer (listening (servers b1 srv))
                         (serverAddress (servers b1 srv)) (ended (servers b1 srv))
                         (originalCloseCalls (servers b1 srv))
                         (S (callbacksRun (servers b1 srv)))
                  else servers b1 srv).
  { assert (Hstopped : listening (servers b1 srv) = false)
      by (rewrite Hb1; reflexivity).
    unfold b2, server_close. rewrite Hc1, Hstopped.
    destruct callback'; simpl; [apply fn_lookup_insert | reflexivity]. }
  repeat split.
  - rewrite Hb1. reflexivity.
  - rewrite Hb1. reflexivity.
  - exact Hc1.
  - rewrite Hb2. destruct callback'; reflexivity.
  - rewrite Hb2. destruct callback'; reflexivity.
  - rewrite Hb2, Hb1. destruct callback'; simpl; lia.
  - intros delay. unfold request. rewrite Hb1. reflexivity.
  - intros path. unfold getServerWsPath. rewrite Hb1. reflexivity.
Qed.

Lemma server_close_shuts_down_once_witness :
  let s := mkHttpServer true (fun path => "http://127.0.0.1:8080" +:+ path) [] [] 0 in
  let c := mkTestConfig 50 [mkPeer 1 None; mkPeer 2 (Some 130)] in
  let b := mkBackstage (fun _ => s) {[ 0%nat := c ]} in
  ended (servers (server_close 0 400 true (server_close 0 100 true b)) 0%nat)
  = [(1%nat, 160)]
  /\ callbacksRun (servers (server_close 0 400 true (server_close 0 100 true b)) 0%nat)
     = 1%nat.
Proof.
  intros s c b.
  destruct (server_close_shuts_down_once 0 100 400 true true b c eq_refl eq_refl)
    as (Hended & _ & _ & Hsame & _ & Hrun & _).
  split.
  - rewrite Hsame, Hended. reflexivity.
  - rewrite Hrun. reflexivity.
Defined.

(** X18: a peer that connects to a registered server is ended when the
    server is closed, if it is still connected then: with no delay on
    record it is ended at the instant of the call.  A peer that connects
    to a server that was never handed to [request] is not tracked, and
    closing that server ends no one. *)
Theorem connected_peer_is_ended (srv : nat) (s : Peer) (now : time) (callback : bool)
    (b : backstage) :
  listening (servers b srv) = true ->
  has now s = true ->
  match serverTestConfigs b !! srv with
  | Some c =>
      shutdownDelay c <= 0 ->
      (peerId s, now) ∈ ended (servers (server_close srv now callback
                                          (connection srv s b)) srv)
  | None =>
      ended (servers (server_close srv now callback (connection srv s b)) srv)
      = ended (servers b srv)
  end.
Proof.
  intros Hlistening Hhas.
  destruct (serverTestConfigs b !! srv) as [c|] eqn:Hconfig.
  - intros Hdelay. unfold server_close, connection. simpl.
    rewrite lookup_alter_eq, Hconfig, Hlistening. simpl.
    rewrite fn_lookup_insert. simpl.
    apply elem_of_app. right. unfold performShutdown.
    destruct (Z.leb_spec (shutdownDelay c) 0) as [_|Hgt]; [|lia].
    apply list_elem_of_In, in_map_iff. exists s. split; [reflexivity|].
    apply filter_In. split; [|exact Hhas].
    apply in_or_app. right. left. reflexivity.
  - unfold server_close, connection. simpl.
    rewrite lookup_alter_eq, Hconfig. simpl.
    rewrite fn_lookup_insert. reflexivity.
Qed.

Lemma connected_peer_is_ended_witness :
  let srv := mkHttpServer true (fun path => "http://127.0.0.1:8080" +:+ path) [] [] 0 in
  let b := mkBackstage (fun _ => srv) {[ 0%nat := mkTestConfig 0 [] ]} in
  (7%nat, 100) ∈ ended (servers (server_close 0 100 false
                                   (connection 0 (mkPeer 7 None) b)) 0%nat).
Proof.
  intros srv b.
  assert (Hdelay : 0 <= 0) by lia.
  exact (connected_peer_is_ended 0 (mkPeer 7 None) 100 false b eq_refl eq_refl Hdelay).
Defined.

(** ** Closing at most once *)

Lemma invoke_keeps_closeCalls `{Builtins} (c : call) (ws : nat) (now : time) (w : world) :
  plain c = true ->
  closeCalls (sockets (snd (invoke c ws now w)) ws) = closeCalls (sockets w ws).
Proof.
  destruct c; cbn [plain invoke]; intros Hc; try discriminate;
    unfold wsMethods.sendText; try destruct (String_ msg) as [text|e];
    rewrite ?snd_returns;
    unfold wsMethods.send, wsMethods.sendJson,
      wsMethods.sendBinary, wsMethods.expectText, wsMethods.expectJson,
      wsMethods.expectBinary, wsMethods.expectMessage, sendWithError, ws_send;
    try reflexivity;
    try (simpl; rewrite fn_lookup_insert; reflexivity);
    destruct (BlockingQueue.pop now (messages (sockets w ws))) as [popped q];
    simpl; rewrite fn_lookup_insert; reflexivity.
Qed.

(** X19: a script without [close] and [exec] steps calls [ws.close] at
    most once, and only to clean up: if the chain it leaves is not
    rejected, the socket's record of [close] calls is as before; if it is
    rejected, the record has at most one call more, made without
    arguments. *)
Theorem script_closes_at_most_once `{Builtins} (cs : list call) (t : time) (ws : nat)
    (st : runtime) :
  forallb plain cs = true ->
  let before := closeCalls (sockets (heap st) ws) in
  let after := closeCalls (sockets (heap (snd (pipeline cs (Settled t (Ok ws), st)))) ws) in
  match fst (pipeline cs (Settled t (Ok ws), st)) with
  | Settled _ (Err _) => after = before \/ after = before ++ [(VUndefined, VUndefined)]
  | _ => after = before
  end.
Proof.
  revert t st. induction cs as [|c cs IH]; intros t st Hcs; [reflexivity|].
  simpl in Hcs. apply andb_true_iff in Hcs as [Hc Hcs].
  cbv zeta. rewrite pipeline_cons.
  pose proof (invoke_keeps_closeCalls c ws t (heap st) Hc) as Hkeep.
  destruct (invoke c ws t (heap st)) as [[p|e] w1] eqn:Hcall; simpl in Hkeep.
  - rewrite (thenDo_returned _ _ _ _ _ _ Hcall).
    destruct (Promise.race _) as [t' [a|e]|].
    + specialize (IH t' (mkRuntime w1 (journal st ++ [Invoked t c; Passed t' c])) Hcs).
      cbv zeta in IH. simpl heap in IH. rewrite Hkeep in IH. exact IH.
    + rewrite pipeline_rejected. simpl.
      destruct (isOpen t' (sockets w1 ws)); [right | left; exact Hkeep].
      simpl. rewrite fn_lookup_alter. simpl. rewrite Hkeep. reflexivity.
    + rewrite pipeline_pending. simpl. exact Hkeep.
  - rewrite (thenDo_threw _ _ _ _ _ _ Hcall), pipeline_rejected. simpl.
    left. exact Hkeep.
Qed.

Lemma script_closes_at_most_once_witness :
  let st := Scenario.fresh (Scenario.allLike (Scenario.receiving [(4, PText "hello")])) in
  let script := [ExpectText (ExpCheck (CheckValue (VString "bye"))) None;
                 SendText (VString "late")] in
  closeCalls (sockets (heap (snd (@pipeline Scenario.builtins script
                                    (Settled 1 (Ok 0%nat), st)))) 0%nat)
  = [(VUndefined, VUndefined)].
Proof.
  intros st script.
  pose proof (@script_closes_at_most_once Scenario.builtins script 1 0%nat st eq_refl)
    as Hcount.
  cbv zeta in Hcount.
  destruct (fst (@pipeline Scenario.builtins script (Settled 1 (Ok 0%nat), st)))
    as [t' [a|e]|] eqn:Hend; try discriminate Hend.
  destruct Hcount as [Hnone|Hone]; [|exact Hone].
  reflexivity.
Defined.

(** ** Showing binary data *)

Lemma unhex_hex (b : byte) : unhex (hex b) = Some b.
Proof. destruct b; reflexivity. Qed.

Lemma hex_inj (a b : byte) : hex a = hex b -> a = b.
Proof.
  intros Heq. apply (f_equal unhex) in Heq. rewrite !unhex_hex in Heq. congruence.
Qed.

Lemma hex_shape (b : byte) : exists hi lo, hex b = String hi (String lo EmptyString)
                                          /\ lo <> " "%char /\ hi <> " "%char.
Proof. destruct b; eexists _, _; (split; [reflexivity|]); split; discriminate. Qed.

Lemma join_hex_inj (a b : list byte) :
  join " " (map hex a) +:+ "]" = join " " (map hex b) +:+ "]" -> a = b.
Proof.
  revert b. induction a as [|x a IH]; intros [|y b] Heq.
  - reflexivity.
  - exfalso. simpl in Heq. destruct (hex_shape y) as (hi & lo & Hy & _ & _).
    rewrite Hy in Heq. destruct b; simpl in Heq; discriminate.
  - exfalso. simpl in Heq. destruct (hex_shape x) as (hi & lo & Hx & _ & _).
    rewrite Hx in Heq. destruct a; simpl in Heq; discriminate.
  - destruct (hex_shape x) as (hi & lo & Hx & _ & _).
    destruct (hex_shape y) as (hi' & lo' & Hy & _ & _).
    assert (Hxy : hex x = hex y /\ a = b).
    { simpl in Heq. rewrite Hx, Hy in *.
      destruct a as [|x' a], b as [|y' b]; simpl in Heq.
      - injection Heq as -> ->. auto.
      - exfalso. injection Heq as _ _ Hrest. discriminate.
      - exfalso. injection Heq as _ _ Hrest. discriminate.
      - injection Heq as -> -> Hrest. split; [reflexivity|].
        apply IH. simpl. exact Hrest. }
    destruct Hxy as [Hhead ->]. apply hex_inj in Hhead. congruence.
Qed.

(** X20: [stringifyBinary] tells binary data apart: two arrays are shown
    as the same text only if they hold the same bytes, so that the
    "Expected message [..], got [..]" of a failed [expectBinary] never
    shows the same text twice.  Each byte is shown by two digits from
    which it can be read back. *)
Theorem stringifyBinary_inj (a b : list byte) :
  stringifyBinary a = stringifyBinary b <-> a = b.
Proof.
  split; [|intros ->; reflexivity].
  unfold stringifyBinary. simpl. intros [= Heq]. apply join_hex_inj. exact Heq.
Qed.
